(** * Fruit Catcher: the [GameEngine] class of gameEngine.js

    A shallow embedding of the game engine (three lanes, falling apples,
    grapes and bombs, a basket moved by pose labels) and of the part of
    main.js that drives it, followed by the properties of the engine.

    Conventions of the embedding.
    - Numbers.  Scores, levels, lanes, tick counters and vertical positions
      are integers in the source (an item starts at -50 and moves by
      3 + 2 * level per tick), so they are [Z].  [Date.now()] is an integer
      number of milliseconds, also [Z].  The elapsed time
      [(Date.now() - this.startTime) / 1000] is the exact rational [Q].
    - Doubles.  The two [Math.random()] draws are doubles, given as the
      rationals they are.  The product [Math.random() * 3] is rounded to
      the nearest double, ties to even ([double_round]), before
      [Math.floor]; the literals 0.8 and 0.6 denote the doubles nearest
      to them ([lit_0_8], [lit_0_6]); comparisons of doubles are exact.
    - [this.startTime] is not set by the constructor: it is an [option Z],
      and arithmetic on [undefined] gives NaN, modelled as [None] in
      [option Q]; every comparison with NaN is false.
    - Effects.  The engine object is passed explicitly.  The round-end
      callback acts on the world outside the engine, of type [W]: a
      callback is a function [Z -> Z -> W -> W] of the final score and
      level.  It does not call back into the engine (the one that main.js
      registers schedules an alert).
    - The clock and the random source are arguments of the operations that
      read them. *)

From Stdlib Require Import ZArith QArith Qround Qpower Qminmax List Sorted String Bool.
From Stdlib Require Import Lia Lqa.
Import ListNotations.
Local Open Scope Z_scope.

(** ** JavaScript numbers that may be NaN *)

Definition Qlt_bool (a b : Q) : bool := negb (Qle_bool b a).

(** [a < b] where [a] may be NaN. *)
Definition num_lt (a : option Q) (b : Q) : bool :=
  match a with
  | Some q => Qlt_bool q b
  | None => false
  end.

(** [a <= b] where [a] may be NaN. *)
Definition num_le (a : option Q) (b : Q) : bool :=
  match a with
  | Some q => Qle_bool q b
  | None => false
  end.

(** ** Double-precision numbers *)

(** 2^k *)
Definition pow2 (k : Z) : Q := Qpower 2 k.

(** The nearest integer, ties to the even one. *)
Definition round_half_even (y : Q) : Z :=
  let f := Qfloor y in
  match (y - inject_Z f ?= 1 # 2)%Q with
  | Lt => f
  | Gt => f + 1
  | Eq => if Z.even f then f else f + 1
  end.

(** [floor(log2 x)] for [x > 0]. *)
Definition ilog2 (x : Q) : Z :=
  let e0 := Z.log2 (Qnum x) - Z.log2 (Zpos (Qden x)) in
  if Qle_bool (pow2 e0) x then e0 else e0 - 1.

(** A positive real rounded to a binary64 number: 53 significant bits,
    round to nearest, ties to even, least exponent -1022 (subnormals
    below).  Overflow to Infinity, from 2^1024 on, is not modelled. *)
Definition round_positive (x : Q) : Q :=
  let q := Z.max (ilog2 x) (-1022) - 52 in
  Qred (inject_Z (round_half_even (x / pow2 q)) * pow2 q).

(** The double that a real result is rounded to. *)
Definition double_round (x : Q) : Q :=
  match (x ?= 0)%Q with
  | Eq => 0%Q
  | Gt => round_positive x
  | Lt => (- round_positive (- x))%Q
  end.

(** The rationals that are doubles. *)
Definition is_double (x : Q) : Prop := (double_round x == x)%Q.

(** The values of the literals [0.8] and [0.6]. *)
Definition lit_0_8 : Q := double_round (8 # 10).
Definition lit_0_6 : Q := double_round (6 # 10).

(** ** Items *)

Inductive ItemType : Type := apple | grape | bomb.

Module Item.
Record t : Type := mk {
  x : option Z;      (* lanes[laneIndex]; undefined when out of range *)
  y : Z;
  lane : Z;
  type : ItemType;
  active : bool
}.

Definition set_y (i : t) (v : Z) : t := mk (x i) v (lane i) (type i) (active i).
Definition set_active (i : t) (b : bool) : t := mk (x i) (y i) (lane i) (type i) b.
End Item.

(** [this.lanes = [100, 300, 500]] and the lookup [this.lanes[i]]. *)
Definition lanes : list Z := [100; 300; 500].

Definition lanes_at (i : Z) : option Z :=
  if i <? 0 then None else nth_error lanes (Z.to_nat i).

(** The pose labels of the source. *)
Definition pose_left : string := "왼쪽".
Definition pose_center : string := "정면".
Definition pose_right : string := "오른쪽".

(** [start(config = {})]: only [config.timeLimit] is read. *)
Record Config : Type := mkConfig { cfg_timeLimit : option Z }.

Definition emptyConfig : Config := mkConfig None.

(** ** Canvas operations issued by [render] *)

Inductive Text : Type :=
| BasketIcon
| ItemIcon (t : ItemType)
| ScoreText (s : Z)             (* `Score: ${this.score}` *)
| TimeText (r : option Z)       (* `Time: ${remaining}`, [None] is NaN *)
| LevelText (l : Z).            (* `Lv.${this.level}` *)

Inductive CanvasOp : Type :=
| StrokeStyle (s : string)
| FillStyle (s : string)
| LineWidth (n : Z)
| Font (s : string)
| TextAlign (s : string)
| BeginPath
| MoveTo (px py : Z)
| LineTo (px py : Z)
| Stroke
| FillText (t : Text) (px : option Z) (py : Z)
| StrokeText (t : Text) (px : option Z) (py : Z).

Section Engine.

(** The world outside the engine, on which the round-end callback acts. *)
Context {W : Type}.

Definition Callback : Type := Z -> Z -> W -> W.

Record GameEngine : Type := mkGameEngine {
  score : Z;
  level : Z;
  timeLimit : Z;
  isGameActive : bool;
  basketPosition : Z;
  items : list Item.t;
  spawnTimer : Z;
  startTime : option Z;
  onGameEnd : option Callback
}.

Definition set_score (g : GameEngine) (v : Z) : GameEngine :=
  mkGameEngine v (level g) (timeLimit g) (isGameActive g) (basketPosition g)
               (items g) (spawnTimer g) (startTime g) (onGameEnd g).
Definition set_level (g : GameEngine) (v : Z) : GameEngine :=
  mkGameEngine (score g) v (timeLimit g) (isGameActive g) (basketPosition g)
               (items g) (spawnTimer g) (startTime g) (onGameEnd g).
Definition set_isGameActive (g : GameEngine) (b : bool) : GameEngine :=
  mkGameEngine (score g) (level g) (timeLimit g) b (basketPosition g)
               (items g) (spawnTimer g) (startTime g) (onGameEnd g).
Definition set_basketPosition (g : GameEngine) (v : Z) : GameEngine :=
  mkGameEngine (score g) (level g) (timeLimit g) (isGameActive g) v
               (items g) (spawnTimer g) (startTime g) (onGameEnd g).
Definition set_items (g : GameEngine) (l : list Item.t) : GameEngine :=
  mkGameEngine (score g) (level g) (timeLimit g) (isGameActive g) (basketPosition g)
               l (spawnTimer g) (startTime g) (onGameEnd g).
Definition set_spawnTimer (g : GameEngine) (v : Z) : GameEngine :=
  mkGameEngine (score g) (level g) (timeLimit g) (isGameActive g) (basketPosition g)
               (items g) v (startTime g) (onGameEnd g).
Definition set_onGameEnd (g : GameEngine) (c : option Callback) : GameEngine :=
  mkGameEngine (score g) (level g) (timeLimit g) (isGameActive g) (basketPosition g)
               (items g) (spawnTimer g) (startTime g) c.

(** [constructor()] *)
Definition constructor : GameEngine :=
  mkGameEngine 0 1 60 false 1 [] 0 None None.

(** [start(config = {})] at clock reading [now].
    [config.timeLimit || 60]: undefined and 0 are falsy. *)
Definition start (g : GameEngine) (config : option Config) (now : Z) : GameEngine :=
  let config := match config with Some c => c | None => emptyConfig end in
  let limit := match cfg_timeLimit config with
               | Some t => if t =? 0 then 60 else t
               | None => 60
               end in
  mkGameEngine 0 1 limit true 1 [] 0 (Some now) (onGameEnd g).

(** [stop()] *)
Definition stop (g : GameEngine) (w : W) : GameEngine * W :=
  let g' := set_isGameActive g false in
  match onGameEnd g' with
  | Some cb => (g', cb (score g') (level g') w)
  | None => (g', w)
  end.

(** [setGameEndCallback(callback)] *)
Definition setGameEndCallback (g : GameEngine) (callback : option Callback) : GameEngine :=
  set_onGameEnd g callback.

(** [onPoseDetected(poseName)] *)
Definition onPoseDetected (g : GameEngine) (poseName : string) : GameEngine :=
  if negb (isGameActive g) then g
  else if String.eqb poseName pose_left then set_basketPosition g 0
  else if String.eqb poseName pose_center then set_basketPosition g 1
  else if String.eqb poseName pose_right then set_basketPosition g 2
  else g.

(** [(Date.now() - this.startTime) / 1000] *)
Definition elapsedSeconds (g : GameEngine) (now : Z) : option Q :=
  match startTime g with
  | Some t0 => Some (Qmake (now - t0) 1000)
  | None => None
  end.

(** The level chosen by the three-way test of [update]. *)
Definition levelAt (elapsed : option Q) : Z :=
  if num_lt elapsed 20 then 1
  else if num_lt elapsed 40 then 2
  else 3.

(** [spawnItem()], with the two [Math.random()] draws [r_lane] and
    [typeRoll], both doubles. *)
Definition spawnItem (g : GameEngine) (r_lane typeRoll : Q) : GameEngine :=
  let laneIndex := Qfloor (double_round (r_lane * 3)) in
  let type :=
    if (level g >=? 2) && Qlt_bool lit_0_8 typeRoll then bomb
    else if Qlt_bool lit_0_6 typeRoll then grape
    else apple in
  set_items g (items g ++ [Item.mk (lanes_at laneIndex) (-50) laneIndex type true]).

(** [handleCollision(item)] *)
Definition handleCollision (g : GameEngine) (w : W) (item : Item.t)
  : GameEngine * W * Item.t :=
  match Item.type item with
  | bomb =>
      let item := Item.set_active item false in
      let '(g, w) := stop g w in
      (g, w, item)
  | apple =>
      let item := Item.set_active item false in
      (set_score g (score g + 100), w, item)
  | grape =>
      let item := Item.set_active item false in
      (set_score g (score g + 200), w, item)
  end.

(** The body of the loop of [updateItems], for one element of
    [this.items]. *)
Definition updateItem (speed : Z) (g : GameEngine) (w : W) (item : Item.t)
  : GameEngine * W * Item.t :=
  if negb (Item.active item) then (g, w, item)
  else
    let item := Item.set_y item (Item.y item + speed) in
    let '(g, w, item) :=
      if (500 <? Item.y item) && (Item.y item <? 560)
         && (Item.lane item =? basketPosition g)
      then handleCollision g w item
      else (g, w, item) in
    let item := if 650 <? Item.y item then Item.set_active item false else item in
    (g, w, item).

(** The loop of [updateItems] over the array, in index order. *)
Fixpoint updateItems_loop (speed : Z) (g : GameEngine) (w : W) (l : list Item.t)
  : GameEngine * W * list Item.t :=
  match l with
  | [] => (g, w, [])
  | item :: rest =>
      let '(g, w, item) := updateItem speed g w item in
      let '(g, w, rest) := updateItems_loop speed g w rest in
      (g, w, item :: rest)
  end.

(** [updateItems()] *)
Definition updateItems (g : GameEngine) (w : W) : GameEngine * W :=
  let speed := 3 + level g * 2 in
  let '(g, w, l) := updateItems_loop speed g w (items g) in
  (set_items g (filter Item.active l), w).

(** [update()] at clock reading [now]; [r_lane] and [typeRoll] are the
    random draws consumed when an item is spawned. *)
Definition update (g : GameEngine) (w : W) (now : Z) (r_lane typeRoll : Q)
  : GameEngine * W :=
  if negb (isGameActive g) then (g, w)
  else
    let elapsed := elapsedSeconds g now in
    let remaining := option_map (fun e => inject_Z (timeLimit g) - e)%Q elapsed in
    let g := set_level g (levelAt elapsed) in
    if num_le remaining 0 then stop g w
    else
      let g := set_spawnTimer g (spawnTimer g + 1) in
      let currentSpawnInterval := Z.max 20 (60 - level g * 10) in
      let g :=
        if currentSpawnInterval <? spawnTimer g
        then set_spawnTimer (spawnItem g r_lane typeRoll) 0
        else g in
      updateItems g w.

(** The remaining time shown by [render]:
    [Math.max(0, this.timeLimit - Math.floor(elapsed))]. *)
Definition remainingTime (g : GameEngine) (now : Z) : option Z :=
  let elapsed := option_map Qfloor (elapsedSeconds g now) in
  option_map (fun e => Z.max 0 (timeLimit g - e)) elapsed.

(** [render(ctx)]: the canvas operations, in the order they are issued. *)
Definition render (g : GameEngine) (now : Z) : list CanvasOp :=
  [ StrokeStyle "#444"; LineWidth 1; BeginPath;
    MoveTo 200 0; LineTo 200 600; MoveTo 400 0; LineTo 400 600; Stroke ]
  ++ [ FillStyle "orange"; Font "80px sans-serif"; TextAlign "center";
       FillText BasketIcon (lanes_at (basketPosition g)) 550 ]
  ++ flat_map (fun item =>
                 [ Font "60px sans-serif";
                   FillText (ItemIcon (Item.type item)) (Item.x item) (Item.y item) ])
              (items g)
  ++ [ FillStyle "white"; StrokeStyle "black"; LineWidth 4;
       Font "bold 30px Arial"; TextAlign "left";
       StrokeText (ScoreText (score g)) (Some 20) 50;
       FillText (ScoreText (score g)) (Some 20) 50;
       StrokeText (TimeText (remainingTime g now)) (Some 450) 50;
       FillText (TimeText (remainingTime g now)) (Some 450) 50;
       FillStyle "yellow";
       FillText (LevelText (level g)) (Some 20) 90 ].

End Engine.

Arguments GameEngine : clear implicits.
Arguments Callback : clear implicits.

(** ** The driver of main.js, as far as it touches the engine *)

Section Driver.

Context {W : Type}.

(** [stop()] of main.js: [if (gameEngine && gameEngine.isGameActive)
    gameEngine.stop()]. *)
Definition main_stop (g : GameEngine W) (w : W) : GameEngine W * W :=
  if isGameActive g then stop g w else (g, w).

(** [handlePrediction]: the stabilised class name, when there is one, is
    passed on while the game is active. *)
Definition handlePrediction (g : GameEngine W) (className : option string)
  : GameEngine W :=
  match className with
  | Some name =>
      if isGameActive g && negb (String.eqb name "")
      then onPoseDetected g name else g
  | None => g
  end.

(** [drawPose]: while the game is active, one [update()] and one
    [render(ctx)] per frame.  The two clock readings are [now] and
    [now']. *)
Definition drawPose (g : GameEngine W) (w : W) (now now' : Z) (r_lane typeRoll : Q)
  : GameEngine W * W * list CanvasOp :=
  if isGameActive g
  then let '(g, w) := update g w now r_lane typeRoll in (g, w, render g now')
  else (g, w, []).

(** [startGameMode(config)]: registers the callback, then starts. *)
Definition startGameMode (g : GameEngine W) (cb : Callback W) (config : Config) (now : Z)
  : GameEngine W :=
  start (setGameEndCallback g (Some cb)) (Some config) now.

(** What the page can do to the engine after [init]. *)
Inductive Event : Type :=
| StopClicked
| Prediction (className : option string)
| Frame (now now' : Z) (r_lane typeRoll : Q).

Definition step (gw : GameEngine W * W) (e : Event) : GameEngine W * W :=
  let '(g, w) := gw in
  match e with
  | StopClicked => main_stop g w
  | Prediction c => (handlePrediction g c, w)
  | Frame now now' r_lane typeRoll => fst (drawPose g w now now' r_lane typeRoll)
  end.

Definition run (gw : GameEngine W * W) (es : list Event) : GameEngine W * W :=
  fold_left step es gw.

End Driver.

(** ** Notions used to state the properties *)

Section Vocabulary.

Context {W : Type}.
Implicit Types (g : GameEngine W) (w : W) (item : Item.t) (l : list Item.t).

(** What the loop of [updateItems] leaves alone in the engine. *)
Definition same_settings g g' : Prop :=
  level g' = level g /\ timeLimit g' = timeLimit g
  /\ basketPosition g' = basketPosition g /\ items g' = items g
  /\ spawnTimer g' = spawnTimer g /\ startTime g' = startTime g
  /\ onGameEnd g' = onGameEnd g.

(** The test that guards [handleCollision] in the loop, on the position
    after the move. *)
Definition caught g (y' : Z) item : Prop :=
  500 < y' < 560 /\ Item.lane item = basketPosition g.

(** [ahead a b]: item [a] is at least the height of the catch band
    further down than item [b]. *)
Definition ahead (a b : Item.t) : Prop := Item.y b + 60 <= Item.y a.

(** The items of a round as the engine itself produces them: all
    active, in spawn order, each at least 60 further down than the ones
    spawned after it, and none above [lo]. *)
Definition spaced (lo : Z) l : Prop :=
  Forall (fun it => Item.active it = true) l
  /\ StronglySorted ahead l
  /\ Forall (fun it => lo <= Item.y it) l.

(** The newest item has fallen for as many ticks as the spawn timer
    has counted. *)
Definition well_spaced g : Prop :=
  spaced (-50 + 5 * (spawnTimer g + 1)) (items g).

(** How a step leaves the world: untouched while the round goes on,
    and with one application of the callback, to the final score and
    level, once the round is over. *)
Definition outcome (cb : Callback W) (w0 : W) (gw : GameEngine W * W) : Prop :=
  (isGameActive (fst gw) = true /\ snd gw = w0)
  \/ (isGameActive (fst gw) = false
      /\ snd gw = cb (score (fst gw)) (level (fst gw)) w0).

End Vocabulary.

(** ** A world that records the calls of the round-end callback *)

Definition Calls : Type := list (Z * Z).

Definition recorder : Callback Calls :=
  fun finalScore finalLevel calls => calls ++ [(finalScore, finalLevel)].

(** The page as main.js sets it up: a new engine, the callback registered,
    a round of 60 seconds started at clock reading 0. *)
Definition fresh : GameEngine Calls :=
  startGameMode constructor recorder (mkConfig (Some 60)) 0.

(** An engine in the middle of a level-1 round holding the given items,
    basket in the centre lane. *)
Definition holding (l : list Item.t) : GameEngine Calls :=
  mkGameEngine 0 1 60 true 1 l 0 (Some 0) (Some recorder).

(** ** Notions for one pass over the items *)

(** An item moved down by the speed of the tick. *)
Definition moved (speed : Z) (item : Item.t) : Item.t :=
  Item.set_y item (Item.y item + speed).

(** The test of the loop of [updateItems], on the position after the move,
    as a boolean. *)
Definition caughtb (basket speed : Z) (item : Item.t) : bool :=
  (500 <? Item.y item + speed) && (Item.y item + speed <? 560)
  && (Item.lane item =? basket).

(** An item whose collision the pass resolves. *)
Definition hits (basket speed : Z) (item : Item.t) : bool :=
  Item.active item && caughtb basket speed item.

(** An item that is still in the collection after the pass. *)
Definition survives (basket speed : Z) (item : Item.t) : bool :=
  Item.active item && negb (caughtb basket speed item)
  && (Item.y item + speed <=? 650).

Definition is_bomb (item : Item.t) : bool :=
  match Item.type item with bomb => true | _ => false end.

(** The points of the header of gameEngine.js: apple +100, grape +200. *)
Definition points (item : Item.t) : Z :=
  match Item.type item with apple => 100 | grape => 200 | bomb => 0 end.

Definition total_points (l : list Item.t) : Z :=
  fold_right (fun item acc => points item + acc) 0 l.

(** The item icons that a list of canvas operations draws, in order. *)
Definition drawnItems (ops : list CanvasOp) : list (ItemType * option Z * Z) :=
  flat_map (fun op => match op with
                      | FillText (ItemIcon t) px py => [(t, px, py)]
                      | _ => []
                      end) ops.

(** ** Sequences of ticks *)

Section Ticking.

Context {W : Type}.

(** One call of [update()]: the clock reading and the two draws. *)
Definition Tick : Type := (Z * Q * Q)%type.

Definition tick (gw : GameEngine W * W) (t : Tick) : GameEngine W * W :=
  let '(now, r_lane, typeRoll) := t in
  update (fst gw) (snd gw) now r_lane typeRoll.


(** The tick gets as far as [updateItems]: the round is active and the
    time is not up. *)
Definition runs (g : GameEngine W) (t : Tick) : bool :=
  let '(now, _, _) := t in
  isGameActive g
  && negb (num_le (option_map (fun e => inject_Z (timeLimit g) - e)%Q
                              (elapsedSeconds g now)) 0).


End Ticking.

(** ** Sequences of calls of the engine's methods *)

Section Calling.

Context {W : Type}.

(** A call of a method of the engine that changes it ([render] reads only). *)
Inductive Call : Type :=
| CallStart (config : option Config) (now : Z)
| CallStop
| CallSetGameEndCallback (callback : option (Callback W))
| CallOnPoseDetected (poseName : string)
| CallUpdate (now : Z) (r_lane typeRoll : Q).

Definition call (gw : GameEngine W * W) (c : Call) : GameEngine W * W :=
  let '(g, w) := gw in
  match c with
  | CallStart config now => (start g config now, w)
  | CallStop => stop g w
  | CallSetGameEndCallback callback => (setGameEndCallback g callback, w)
  | CallOnPoseDetected poseName => (onPoseDetected g poseName, w)
  | CallUpdate now r_lane typeRoll => update g w now r_lane typeRoll
  end.

Definition calls (gw : GameEngine W * W) (cs : list Call) : GameEngine W * W :=
  fold_left call cs gw.

(** The engine after any calls on a newly constructed one. *)
Definition reached (w : W) (cs : list Call) : GameEngine W :=
  fst (calls (constructor, w) cs).

(** The ranges that the fields of the engine stay in. *)
Definition sane (g : GameEngine W) : Prop :=
  0 <= basketPosition g <= 2
  /\ 1 <= level g <= 3
  /\ 0 <= score g /\ (100 | score g)
  /\ 0 <= spawnTimer g <= 50
  /\ (isGameActive g = true -> startTime g <> None)
  /\ Forall (fun item => Item.active item = true /\ -45 <= Item.y item <= 650)
            (items g).

(** Every [Math.random()] draw for the lane is a double in [0,1). *)
Definition unit_draws (cs : list Call) : Prop :=
  Forall (fun c => match c with
                   | CallUpdate _ r_lane _ =>
                       is_double r_lane /\ (0 <= r_lane)%Q /\ (r_lane < 1)%Q
                   | _ => True
                   end) cs.

(** No callback is registered by these calls. *)
Definition unregistered (cs : list Call) : Prop :=
  Forall (fun c => match c with
                   | CallSetGameEndCallback (Some _) => False
                   | _ => True
                   end) cs.

(** The pose labels that [onPoseDetected] acts on. *)
Definition recognised (poseName : string) : Prop :=
  poseName = pose_left \/ poseName = pose_center \/ poseName = pose_right.

End Calling.

Arguments Call : clear implicits.

(** * Properties *)

Section Lifecycle.

Context {W : Type}.
Implicit Types (g : GameEngine W) (w : W).

(** C7. Whatever the configuration and the previous state, [start()]
    sets the score to 0, the level to 1, the items to the empty
    collection, the basket to the centre lane 1 and the round active,
    and records the clock reading as the start of the round.  (It also
    resets the spawn timer and keeps the registered callback.) *)
Theorem start_resets g (config : option Config) (now : Z) :
  let g' := start g config now in
  score g' = 0 /\ level g' = 1 /\ items g' = [] /\ basketPosition g' = 1
  /\ isGameActive g' = true /\ startTime g' = Some now
  /\ spawnTimer g' = 0 /\ onGameEnd g' = onGameEnd g.
Proof. cbv zeta; unfold start; simpl; repeat split. Qed.

(** The time limit taken from the configuration: [config.timeLimit || 60]. *)
Lemma start_timeLimit g (config : option Config) (now : Z) :
  timeLimit (start g config now) =
  match config with
  | Some (mkConfig (Some t)) => if t =? 0 then 60 else t
  | _ => 60
  end.
Proof. destruct config as [[[t|]]|]; reflexivity. Qed.

(** C8. While the round is active the labels for left, centre and right
    (왼쪽, 정면, 오른쪽 in the source) put the basket in lane 0, 1 and 2
    and change nothing else; while it is inactive no label changes the
    state; a label outside the three never changes the basket lane. *)
Theorem onPoseDetected_lanes g :
  (isGameActive g = true ->
     onPoseDetected g pose_left = set_basketPosition g 0
     /\ onPoseDetected g pose_center = set_basketPosition g 1
     /\ onPoseDetected g pose_right = set_basketPosition g 2)
  /\ (isGameActive g = false -> forall p, onPoseDetected g p = g)
  /\ (forall p, p <> pose_left -> p <> pose_center -> p <> pose_right ->
        basketPosition (onPoseDetected g p) = basketPosition g).
Proof.
  unfold onPoseDetected. repeat split.
  1-3: rewrite H; reflexivity.
  - intros H p. rewrite H. reflexivity.
  - intros p Hl Hc Hr.
    apply String.eqb_neq in Hl, Hc, Hr. rewrite Hl, Hc, Hr.
    destruct (negb (isGameActive g)); reflexivity.
Qed.

(** C9. [stop()] changes the active flag and nothing else in the engine:
    score, level, time limit, basket lane, items, spawn timer, start time
    and the registered callback are as before; the callback, when there is
    one, is applied to the score and level held before the call. *)
Theorem stop_frame g w :
  let g' := fst (stop g w) in
  score g' = score g /\ level g' = level g /\ timeLimit g' = timeLimit g
  /\ basketPosition g' = basketPosition g /\ items g' = items g
  /\ spawnTimer g' = spawnTimer g /\ startTime g' = startTime g
  /\ onGameEnd g' = onGameEnd g
  /\ isGameActive g' = false
  /\ snd (stop g w) = match onGameEnd g with
                      | Some cb => cb (score g) (level g) w
                      | None => w
                      end.
Proof.
  cbv zeta. unfold stop. cbn.
  destruct (onGameEnd g) eqn:E; cbn; repeat split; auto.
Qed.

End Lifecycle.

Section Collisions.

Context {W : Type}.
Implicit Types (g : GameEngine W) (w : W) (item : Item.t).

Lemma same_settings_refl g : same_settings g g.
Proof. repeat split. Qed.

Lemma same_settings_trans g1 g2 g3 :
  same_settings g1 g2 -> same_settings g2 g3 -> same_settings g1 g3.
Proof. unfold same_settings. intuition congruence. Qed.

Lemma stop_settings g w : same_settings g (fst (stop g w)).
Proof. unfold stop. cbn. destruct (onGameEnd g); repeat split. Qed.

Lemma handleCollision_settings g w item :
  same_settings g (fst (fst (handleCollision g w item))).
Proof.
  unfold handleCollision.
  destruct (Item.type item); try (repeat split; fail).
  pose proof (stop_settings g w) as H.
  destruct (stop g w) as [g' w']. exact H.
Qed.

Lemma handleCollision_item g w item :
  snd (handleCollision g w item) = Item.set_active item false.
Proof.
  unfold handleCollision.
  destruct (Item.type item); try reflexivity.
  destruct (stop g w); reflexivity.
Qed.

Lemma updateItem_settings speed g w item :
  same_settings g (fst (fst (updateItem speed g w item))).
Proof.
  unfold updateItem.
  destruct (negb (Item.active item)); [apply same_settings_refl|].
  match goal with |- context [if ?c then _ else _] => destruct c end.
  - pose proof (handleCollision_settings g w (Item.set_y item (Item.y item + speed))) as H.
    destruct (handleCollision g w _) as [[g' w'] i']. exact H.
  - apply same_settings_refl.
Qed.

Lemma updateItems_loop_settings speed l : forall g w,
  same_settings g (fst (fst (updateItems_loop speed g w l))).
Proof.
  induction l as [|item rest IH]; intros g w; cbn [updateItems_loop].
  - apply same_settings_refl.
  - pose proof (updateItem_settings speed g w item) as H1.
    destruct (updateItem speed g w item) as [[g1 w1] i1].
    pose proof (IH g1 w1) as H2.
    destruct (updateItems_loop speed g1 w1 rest) as [[g2 w2] r2].
    exact (same_settings_trans _ _ _ H1 H2).
Qed.

(** After [updateItems] the collection holds active items only: an item
    marked inactive during the loop is gone. *)
Lemma updateItems_purges g w item :
  In item (items (fst (updateItems g w))) -> Item.active item = true.
Proof.
  unfold updateItems.
  destruct (updateItems_loop _ g w (items g)) as [[g' w'] l].
  cbn. intros H. apply filter_In in H. tauto.
Qed.

(** C3. Resolving a collision marks the item inactive, so that it is not
    in the collection once [updateItems] has purged it.  For an apple the
    score grows by exactly 100, for a grape by exactly 200, and the round
    stays as it was and the callback is not called.  For a bomb the score
    is unchanged, the round becomes inactive and the registered callback
    is applied once, to the score before the collision and the current
    level. *)
Theorem handleCollision_effect g w item (cb : Callback W) :
  onGameEnd g = Some cb ->
  let '(g', w', item') := handleCollision g w item in
  Item.active item' = false
  /\ (forall g2 (w2 : W), ~ In item' (items (fst (updateItems g2 w2))))
  /\ level g' = level g
  /\ match Item.type item with
     | apple => score g' = score g + 100
                /\ isGameActive g' = isGameActive g /\ w' = w
     | grape => score g' = score g + 200
                /\ isGameActive g' = isGameActive g /\ w' = w
     | bomb => score g' = score g
               /\ isGameActive g' = false /\ w' = cb (score g) (level g) w
     end.
Proof.
  intros Hcb.
  pose proof (handleCollision_item g w item) as Hitem.
  assert (Hgone : forall g2 (w2 : W),
             ~ In (Item.set_active item false) (items (fst (updateItems g2 w2)))).
  { intros g2 w2 Hin. apply updateItems_purges in Hin. discriminate. }
  unfold handleCollision in *.
  destruct (Item.type item); cbn in *.
  - repeat split; auto.
  - repeat split; auto.
  - unfold stop in *. cbn in *. rewrite Hcb in *. cbn in *.
    repeat split; auto.
Qed.

Lemma caught_dec g (y' : Z) item : caught g y' item \/ ~ caught g y' item.
Proof.
  unfold caught. destruct (Z.eq_dec (Item.lane item) (basketPosition g)); lia.
Qed.

(** An active item that passes the test: the body of the loop is
    [handleCollision] on the moved item. *)
Lemma updateItem_caught speed g w item :
  Item.active item = true ->
  caught g (Item.y item + speed) item ->
  updateItem speed g w item
  = handleCollision g w (Item.set_y item (Item.y item + speed)).
Proof.
  intros Hact [[H1 H2] H3]. unfold updateItem. rewrite Hact. cbn [negb].
  set (y' := Item.y item + speed) in *.
  set (moved := Item.set_y item y').
  change (Item.y moved) with y'. change (Item.lane moved) with (Item.lane item).
  replace (500 <? y') with true by (symmetry; apply Z.ltb_lt; lia).
  replace (y' <? 560) with true by (symmetry; apply Z.ltb_lt; lia).
  replace (Item.lane item =? basketPosition g) with true
    by (symmetry; apply Z.eqb_eq; exact H3).
  cbn [andb].
  pose proof (handleCollision_item g w moved) as Hi.
  destruct (handleCollision g w moved) as [[g1 w1] i1]. cbn in Hi. subst i1.
  change (Item.y (Item.set_active moved false)) with y'.
  replace (650 <? y') with false by (symmetry; apply Z.ltb_ge; lia).
  reflexivity.
Qed.

(** An active item that fails the test: it is moved, and dropped when
    beyond 650; engine and world are untouched. *)
Lemma updateItem_missed speed g w item :
  Item.active item = true ->
  ~ caught g (Item.y item + speed) item ->
  updateItem speed g w item
  = (g, w, Item.set_active (Item.set_y item (Item.y item + speed))
                           (negb (650 <? Item.y item + speed))).
Proof.
  intros Hact Hnc. unfold updateItem. rewrite Hact. cbn [negb].
  set (y' := Item.y item + speed) in *.
  set (moved := Item.set_y item y').
  change (Item.y moved) with y'. change (Item.lane moved) with (Item.lane item).
  replace ((500 <? y') && (y' <? 560) && (Item.lane item =? basketPosition g))
    with false.
  2:{ symmetry. apply not_true_is_false. intros Ht.
      apply andb_prop in Ht as [Ht H3]. apply andb_prop in Ht as [H1 H2].
      apply Hnc. split; [split|].
      - apply Z.ltb_lt; exact H1.
      - apply Z.ltb_lt; exact H2.
      - apply Z.eqb_eq; exact H3. }
  change (Item.y moved) with y'.
  destruct (650 <? y'); cbn [negb].
  - reflexivity.
  - subst moved. destruct item; cbn in *. subst. reflexivity.
Qed.

(** An inactive item is skipped. *)
Lemma updateItem_skipped speed g w item :
  Item.active item = false -> updateItem speed g w item = (g, w, item).
Proof. intros H. unfold updateItem. rewrite H. reflexivity. Qed.

(** An active item moves by the speed, caught or not. *)
Lemma updateItem_moves speed g w item :
  Item.active item = true ->
  Item.y (snd (updateItem speed g w item)) = Item.y item + speed.
Proof.
  intros Hact.
  destruct (caught_dec g (Item.y item + speed) item) as [Hc|Hn].
  - rewrite (updateItem_caught speed g w item Hact Hc), handleCollision_item.
    reflexivity.
  - rewrite (updateItem_missed speed g w item Hact Hn). reflexivity.
Qed.

(** C2 as amended. In the loop of [updateItems] an active item is first
    moved down by the speed; its collision is resolved if and only if
    the new position is strictly between 500 and 560 (500 itself and 560
    are both outside) and its lane is the basket's lane.  Otherwise the
    engine and the world are untouched and the item is only moved, and
    marked inactive when it is beyond 650.  Seen from the result: the
    item comes out inactive at a position of at most 650 exactly when
    its collision was resolved. *)
Theorem updateItem_collision speed g w item :
  Item.active item = true ->
  let y' := Item.y item + speed in
  let moved := Item.set_y item y' in
  (caught g y' item ->
     updateItem speed g w item = handleCollision g w moved)
  /\ (~ caught g y' item ->
        updateItem speed g w item
        = (g, w, Item.set_active moved (negb (650 <? y'))))
  /\ (caught g y' item <->
        Item.active (snd (updateItem speed g w item)) = false
        /\ Item.y (snd (updateItem speed g w item)) <= 650).
Proof.
  intros Hact y' moved.
  split; [apply updateItem_caught; exact Hact|].
  split; [apply updateItem_missed; exact Hact|].
  split.
  - intros Hyes. rewrite (updateItem_caught speed g w item Hact Hyes).
    rewrite handleCollision_item.
    destruct Hyes as [[H1 H2] _]. subst moved. cbn. split; [reflexivity|lia].
  - intros [Hoff Hpos].
    destruct (caught_dec g y' item) as [Hyes|Hno]; [exact Hyes|].
    rewrite (updateItem_missed speed g w item Hact Hno) in Hoff, Hpos.
    cbn in Hoff, Hpos. fold y' in Hoff.
    destruct (650 <? y') eqn:E; cbn in Hoff; [|discriminate].
    apply Z.ltb_lt in E. lia.
Qed.

End Collisions.

Section Clock.

Context {W : Type}.
Implicit Types (g : GameEngine W) (w : W).

Lemma Qlt_bool_iff (a b : Q) : Qlt_bool a b = true <-> (a < b)%Q.
Proof.
  unfold Qlt_bool. rewrite negb_true_iff. split.
  - intros H. apply Qnot_le_lt. intros Hle.
    apply Qle_bool_iff in Hle. congruence.
  - intros H. apply not_true_is_false. intros Hle.
    apply Qle_bool_iff in Hle. exact (Qlt_not_le _ _ H Hle).
Qed.

Lemma Qlt_bool_false (a b : Q) : Qlt_bool a b = false <-> (b <= a)%Q.
Proof.
  unfold Qlt_bool. rewrite negb_false_iff. apply Qle_bool_iff.
Qed.

(** The level as a function of the elapsed seconds. *)
Lemma levelAt_thresholds (e : Q) :
  ((e < 20)%Q -> levelAt (Some e) = 1)
  /\ ((20 <= e)%Q -> (e < 40)%Q -> levelAt (Some e) = 2)
  /\ ((40 <= e)%Q -> levelAt (Some e) = 3).
Proof.
  unfold levelAt, num_lt. repeat split.
  - intros H. apply Qlt_bool_iff in H. rewrite H. reflexivity.
  - intros H1 H2. apply Qlt_bool_false in H1. apply Qlt_bool_iff in H2.
    rewrite H1, H2. reflexivity.
  - intros H.
    assert (H20 : (20 <= e)%Q) by (apply Qle_trans with (y := 40%Q); [discriminate|exact H]).
    apply Qlt_bool_false in H, H20. rewrite H, H20. reflexivity.
Qed.

Lemma levelAt_range (e : option Q) : 1 <= levelAt e <= 3.
Proof.
  unfold levelAt.
  destruct (num_lt e 20); [lia|]. destruct (num_lt e 40); lia.
Qed.

Lemma updateItems_level g w : level (fst (updateItems g w)) = level g.
Proof.
  unfold updateItems.
  pose proof (updateItems_loop_settings (3 + level g * 2) (items g) g w) as H.
  destruct (updateItems_loop _ g w (items g)) as [[g' w'] l].
  cbn in *. apply H.
Qed.

(** The level held by the engine after a tick of an active round. *)
Lemma tick_level_levelAt g w now r_lane typeRoll :
  isGameActive g = true ->
  level (fst (update g w now r_lane typeRoll)) = levelAt (elapsedSeconds g now).
Proof.
  intros Hact. unfold update. rewrite Hact. cbn [negb].
  match goal with |- context [if ?c then _ else _] => destruct c end.
  - pose proof (stop_settings (set_level g (levelAt (elapsedSeconds g now))) w) as H.
    destruct H as [H _]. rewrite H. reflexivity.
  - rewrite updateItems_level.
    match goal with |- context [if ?c then _ else _] => destruct c end; reflexivity.
Qed.

(** C4. In a tick of an active round the level is set from the elapsed
    time e = (now - startTime) / 1000 alone: it is 1 when e < 20 (so in
    particular when 0 <= e < 20), 2 when 20 <= e < 40 and 3 when
    40 <= e, whatever the rest of the state, the world and the random
    draws are. *)
Theorem update_level g w (now : Z) (r_lane typeRoll : Q) (t0 : Z) :
  isGameActive g = true ->
  startTime g = Some t0 ->
  let e := Qmake (now - t0) 1000 in
  let g' := fst (update g w now r_lane typeRoll) in
  ((0 <= e)%Q -> (e < 20)%Q -> level g' = 1)
  /\ ((20 <= e)%Q -> (e < 40)%Q -> level g' = 2)
  /\ ((40 <= e)%Q -> level g' = 3).
Proof.
  intros Hact Ht0 e g'. subst g'.
  rewrite (tick_level_levelAt g w now r_lane typeRoll Hact).
  unfold elapsedSeconds. rewrite Ht0. fold e.
  destruct (levelAt_thresholds e) as (H1 & H2 & H3).
  repeat split; auto.
Qed.

(** The remaining time drawn by [render], when the round has a start
    time: the limit minus the whole seconds elapsed, never below 0. *)
Lemma remainingTime_value g now t0 :
  startTime g = Some t0 ->
  remainingTime g now
  = Some (Z.max 0 (timeLimit g - Qfloor (Qmake (now - t0) 1000))).
Proof.
  intros H. unfold remainingTime, elapsedSeconds. rewrite H. reflexivity.
Qed.

Lemma Qceiling_sub_Z (t : Z) (e : Q) :
  Qceiling (inject_Z t - e) = t - Qfloor e.
Proof.
  destruct e as [n d]. unfold Qceiling, Qfloor, Qminus, Qplus, Qopp, inject_Z.
  cbn [Qnum Qden].
  replace (- (t * Z.pos d + - n * 1)) with (n + (- t) * Z.pos d) by lia.
  replace (Z.pos (1 * d)) with (Z.pos d) by lia.
  rewrite Z.div_add by lia. lia.
Qed.

(** C5 as amended. For a round with start time t0 the remaining time
    that [render] draws is max(0, timeLimit - floor(e)), with
    e = (now - t0) / 1000: the elapsed time is rounded down before the
    subtraction.  For an integer limit this is max(0, timeLimit - e)
    rounded up to whole seconds. *)
Theorem render_remaining g (now t0 : Z) :
  startTime g = Some t0 ->
  let e := Qmake (now - t0) 1000 in
  let r := Z.max 0 (timeLimit g - Qfloor e) in
  remainingTime g now = Some r
  /\ In (FillText (TimeText (Some r)) (Some 450) 50) (render g now)
  /\ r = Qceiling (Qmax 0 (inject_Z (timeLimit g) - e)).
Proof.
  intros Ht0 e r.
  pose proof (remainingTime_value g now t0 Ht0) as Hr. fold e in Hr. fold r in Hr.
  split; [exact Hr|]. split.
  - unfold render. rewrite Hr.
    apply in_or_app; right. apply in_or_app; right. apply in_or_app; right.
    cbn. do 8 right. left. reflexivity.
  - subst r. rewrite <- Qceiling_sub_Z.
    destruct (Q.max_spec 0 (inject_Z (timeLimit g) - e)) as [[Hlt Heq]|[Hle Heq]].
    + assert (Hc : Qceiling (Qmax 0 (inject_Z (timeLimit g) - e))
                   = Qceiling (inject_Z (timeLimit g) - e)).
      { apply Z.le_antisymm; apply Qceiling_resp_le; rewrite Heq; apply Qle_refl. }
      rewrite Hc.
      assert (0 <= Qceiling (inject_Z (timeLimit g) - e)).
      { change 0 with (Qceiling 0). apply Qceiling_resp_le. apply Qlt_le_weak, Hlt. }
      lia.
    + assert (Hc : Qceiling (Qmax 0 (inject_Z (timeLimit g) - e)) = 0).
      { change 0 with (Qceiling 0) at 2.
        apply Z.le_antisymm; apply Qceiling_resp_le; rewrite Heq; apply Qle_refl. }
      rewrite Hc.
      assert (Qceiling (inject_Z (timeLimit g) - e) <= 0).
      { change 0 with (Qceiling 0). apply Qceiling_resp_le. exact Hle. }
      lia.
Qed.

End Clock.

Section Doubles.

Lemma pow2_pos (k : Z) : (0 < pow2 k)%Q.
Proof. apply Qpower_0_lt. reflexivity. Qed.

Lemma pow2_add (a b : Z) : (pow2 (a + b) == pow2 a * pow2 b)%Q.
Proof. apply Qpower_plus. discriminate. Qed.

Lemma pow2_le (a b : Z) : a <= b -> (pow2 a <= pow2 b)%Q.
Proof. intros H. apply Qpower_le_compat_l; [exact H|discriminate]. Qed.

Lemma pow2_lt_inv (a b : Z) : (pow2 a < pow2 b)%Q -> a < b.
Proof. intros H. apply (Qpower_lt_compat_l_inv 2); [exact H|reflexivity]. Qed.

Lemma pow2_nonneg (n : Z) : 0 <= n -> (pow2 n == inject_Z (2 ^ n))%Q.
Proof. intros H. unfold pow2. rewrite (Zpower_Qpower 2 n H). reflexivity. Qed.

Lemma div_pow2 (x : Q) (k : Z) : (x / pow2 k == x * pow2 (- k))%Q.
Proof. unfold Qdiv, pow2. rewrite Qpower_opp. reflexivity. Qed.

(** pow2 (a - b) as a fraction of integer powers. *)
Lemma pow2_sub (a b : Z) : 0 <= a -> 0 <= b ->
  (pow2 (a - b) == Qmake (2 ^ a) (Z.to_pos (2 ^ b)))%Q.
Proof.
  intros Ha Hb. unfold pow2. rewrite Qpower_minus by discriminate.
  fold (pow2 a). fold (pow2 b). rewrite (pow2_nonneg a Ha), (pow2_nonneg b Hb).
  rewrite Qmake_Qdiv. rewrite Z2Pos.id by (apply Z.pow_pos_nonneg; lia).
  reflexivity.
Qed.

Lemma ilog2_spec (x : Q) :
  (0 < x)%Q -> (pow2 (ilog2 x) <= x)%Q /\ (x < pow2 (ilog2 x + 1))%Q.
Proof.
  intros Hx. destruct x as [n d]. unfold Qlt in Hx. cbn in Hx.
  assert (Hn : 0 < n) by lia.
  unfold ilog2. cbn [Qnum Qden].
  set (a := Z.log2 n). set (b := Z.log2 (Z.pos d)).
  assert (Ha : 0 <= a) by apply Z.log2_nonneg.
  assert (Hb : 0 <= b) by apply Z.log2_nonneg.
  destruct (Z.log2_spec n Hn) as [Ha1 Ha2]. fold a in Ha1, Ha2.
  destruct (Z.log2_spec (Z.pos d) ltac:(lia)) as [Hb1 Hb2]. fold b in Hb1, Hb2.
  assert (Hpa : 0 < 2 ^ a) by (apply Z.pow_pos_nonneg; lia).
  assert (Hpb : 0 < 2 ^ b) by (apply Z.pow_pos_nonneg; lia).
  rewrite Z.pow_succ_r in Ha2, Hb2 by lia.
  assert (Hlow : (pow2 (a - b - 1) <= n # d)%Q).
  { replace (a - b - 1) with (a - (b + 1)) by lia.
    rewrite (pow2_sub a (b + 1)) by lia.
    unfold Qle. cbn [Qnum Qden].
    rewrite Z2Pos.id by (apply Z.pow_pos_nonneg; lia).
    rewrite Z.pow_add_r by lia. change (2 ^ 1) with 2. nia. }
  assert (Hhigh : (n # d < pow2 (a - b + 1))%Q).
  { replace (a - b + 1) with (a + 1 - b) by lia.
    rewrite (pow2_sub (a + 1) b) by lia.
    unfold Qlt. cbn [Qnum Qden].
    rewrite Z2Pos.id by exact Hpb.
    rewrite Z.pow_add_r by lia. change (2 ^ 1) with 2. nia. }
  destruct (Qle_bool (pow2 (a - b)) (n # d)) eqn:E.
  - apply Qle_bool_iff in E. split; [exact E|exact Hhigh].
  - split; [exact Hlow|].
    replace (a - b - 1 + 1) with (a - b) by lia.
    apply Qnot_le_lt. intros H. apply Qle_bool_iff in H. congruence.
Qed.

Lemma ilog2_unique (x : Q) (e : Z) :
  (pow2 e <= x)%Q -> (x < pow2 (e + 1))%Q -> ilog2 x = e.
Proof.
  intros H1 H2.
  assert (Hx : (0 < x)%Q) by (eapply Qlt_le_trans; [apply (pow2_pos e)|exact H1]).
  destruct (ilog2_spec x Hx) as [H3 H4].
  assert (ilog2 x < e + 1)
    by (apply pow2_lt_inv; eapply Qle_lt_trans; eauto).
  assert (e < ilog2 x + 1)
    by (apply pow2_lt_inv; eapply Qle_lt_trans; eauto).
  lia.
Qed.

#[local] Instance round_half_even_comp : Proper (Qeq ==> eq) round_half_even.
Proof.
  intros x y H. unfold round_half_even.
  assert (Hf : Qfloor x = Qfloor y) by (rewrite H; reflexivity).
  rewrite Hf.
  assert (Hc : (x - inject_Z (Qfloor y) ?= 1 # 2)%Q
               = (y - inject_Z (Qfloor y) ?= 1 # 2)%Q)
    by (rewrite H; reflexivity).
  rewrite Hc. reflexivity.
Qed.

Lemma inject_Z_pred (k : Z) : (inject_Z (k - 1) == inject_Z k - 1)%Q.
Proof. unfold Z.sub. rewrite inject_Z_plus. reflexivity. Qed.

Lemma Qfloor_ge (k : Z) (y : Q) : (inject_Z k <= y)%Q -> k <= Qfloor y.
Proof.
  intros H. rewrite <- (Qfloor_Z k). apply Qfloor_resp_le. exact H.
Qed.

Lemma Qfloor_lt (k : Z) (y : Q) : (y < inject_Z k)%Q -> Qfloor y < k.
Proof.
  intros H. rewrite Zlt_Qlt. eapply Qle_lt_trans; [apply Qfloor_le|exact H].
Qed.

(** The three cases of rounding to the nearest integer. *)
Lemma round_half_even_cases (y : Q) :
  let f := Qfloor y in
  ((y - inject_Z f < 1 # 2)%Q /\ round_half_even y = f)
  \/ ((1 # 2 < y - inject_Z f)%Q /\ round_half_even y = f + 1)
  \/ ((y - inject_Z f == 1 # 2)%Q
      /\ round_half_even y = if Z.even f then f else f + 1).
Proof.
  cbv zeta. unfold round_half_even.
  destruct (Qcompare_spec (y - inject_Z (Qfloor y)) (1 # 2)) as [H|H|H].
  - right. right. split; [exact H|reflexivity].
  - left. split; [exact H|reflexivity].
  - right. left. split; [exact H|reflexivity].
Qed.

Lemma round_half_even_ge (k : Z) (y : Q) :
  (inject_Z k <= y)%Q -> k <= round_half_even y.
Proof.
  intros H. pose proof (Qfloor_ge k y H) as Hf.
  destruct (round_half_even_cases y) as [[_ ->]|[[_ ->]|[_ ->]]];
    try destruct (Z.even (Qfloor y)); lia.
Qed.

Lemma round_half_even_le (k : Z) (y : Q) :
  (y <= inject_Z k)%Q -> round_half_even y <= k.
Proof.
  intros H.
  pose proof (Qfloor_le y) as Hfl.
  assert (Hf : Qfloor y <= k).
  { rewrite Zle_Qle. eapply Qle_trans; eauto. }
  destruct (Z.eq_dec (Qfloor y) k) as [E|E].
  - destruct (round_half_even_cases y) as [[_ ->]|[[Hc _]|[Hc _]]];
      [lia| |]; rewrite E in Hc; exfalso; lra.
  - destruct (round_half_even_cases y) as [[_ ->]|[[_ ->]|[_ ->]]];
      try destruct (Z.even (Qfloor y)); lia.
Qed.

Lemma round_half_even_reaches (K : Z) (y : Q) :
  Z.even K = true -> (inject_Z K - (1 # 2) <= y)%Q -> K <= round_half_even y.
Proof.
  intros Hev H.
  assert (Hf : K - 1 <= Qfloor y).
  { apply Qfloor_ge. rewrite inject_Z_pred. lra. }
  destruct (Z.eq_dec (Qfloor y) (K - 1)) as [E|E].
  - assert (Hodd : Z.even (Qfloor y) = false).
    { rewrite E. replace (K - 1) with (Z.pred K) by lia.
      rewrite Z.even_pred. rewrite <- Z.negb_even, Hev. reflexivity. }
    destruct (round_half_even_cases y) as [[Hc _]|[[_ ->]|[_ ->]]].
    + rewrite E, inject_Z_pred in Hc. exfalso. lra.
    + lia.
    + rewrite Hodd. lia.
  - destruct (round_half_even_cases y) as [[_ ->]|[[_ ->]|[_ ->]]];
      try destruct (Z.even (Qfloor y)); lia.
Qed.

Lemma round_half_even_below (K : Z) (y : Q) :
  (y < inject_Z K - (1 # 2))%Q -> round_half_even y < K.
Proof.
  intros H.
  assert (Hf : Qfloor y < K) by (apply Qfloor_lt; lra).
  pose proof (Qlt_floor y) as Hfl.
  destruct (Z.eq_dec (Qfloor y) (K - 1)) as [E|E].
  - destruct (round_half_even_cases y) as [[_ ->]|[[Hc _]|[Hc _]]];
      [lia| |]; rewrite E, inject_Z_pred in Hc; exfalso; lra.
  - destruct (round_half_even_cases y) as [[_ ->]|[[_ ->]|[_ ->]]];
      try destruct (Z.even (Qfloor y)); lia.
Qed.

(** Rounding a value of the binade [2^e, 2^(e+1)), e >= -1022. *)
Lemma double_round_binade (x : Q) (e : Z) :
  -1022 <= e -> (pow2 e <= x)%Q -> (x < pow2 (e + 1))%Q ->
  (double_round x
   == inject_Z (round_half_even (x * pow2 (52 - e))) * pow2 (e - 52))%Q.
Proof.
  intros He H1 H2.
  assert (Hx : (0 < x)%Q) by (eapply Qlt_le_trans; [apply (pow2_pos e)|exact H1]).
  unfold double_round.
  destruct (Qcompare_spec x 0) as [H|H|H]; try (exfalso; lra).
  unfold round_positive. rewrite Qred_correct.
  rewrite (ilog2_unique x e H1 H2).
  replace (Z.max e (-1022)) with e by lia.
  rewrite div_pow2. replace (- (e - 52)) with (52 - e) by lia. reflexivity.
Qed.

(** Values below 1/2 round to at most 1/2. *)
Lemma double_round_small (x : Q) :
  (0 <= x)%Q -> (x < 1 # 2)%Q ->
  (0 <= double_round x)%Q /\ (double_round x <= 1 # 2)%Q.
Proof.
  intros H0 H1. unfold double_round.
  destruct (Qcompare_spec x 0) as [H|H|H]; try (exfalso; lra).
  - split; [apply Qle_refl|discriminate].
  - destruct (ilog2_spec x H) as [Hlo Hhi].
    assert (He : ilog2 x < -1).
    { apply pow2_lt_inv. eapply Qle_lt_trans; [exact Hlo|].
      change (pow2 (-1)) with (1 # 2)%Q. exact H1. }
    unfold round_positive. rewrite Qred_correct.
    set (e := Z.max (ilog2 x) (-1022)).
    assert (He' : e < -1) by lia.
    set (q := e - 52).
    pose proof (pow2_pos q) as Hq.
    assert (Hy0 : (inject_Z 0 <= x / pow2 q)%Q).
    { apply Qle_shift_div_l; [exact Hq|]. change (inject_Z 0) with 0%Q. lra. }
    assert (Hy1 : (x / pow2 q <= inject_Z (2 ^ 53))%Q).
    { apply Qle_shift_div_r; [exact Hq|].
      rewrite <- (pow2_nonneg 53) by lia. rewrite <- pow2_add.
      apply Qlt_le_weak. eapply Qlt_le_trans; [exact Hhi|].
      apply pow2_le. lia. }
    pose proof (round_half_even_ge 0 _ Hy0) as Hm0.
    pose proof (round_half_even_le _ _ Hy1) as Hm1.
    set (m := round_half_even (x / pow2 q)) in *.
    split.
    + apply Qmult_le_0_compat; [|apply Qlt_le_weak; exact Hq].
      change 0%Q with (inject_Z 0). rewrite <- Zle_Qle. exact Hm0.
    + apply Qle_trans with (y := (inject_Z (2 ^ 53) * pow2 q)%Q).
      * apply Qmult_le_compat_r; [|apply Qlt_le_weak; exact Hq].
        rewrite <- Zle_Qle. exact Hm1.
      * rewrite <- (pow2_nonneg 53) by lia. rewrite <- pow2_add.
        change (1 # 2)%Q with (pow2 (-1)). apply pow2_le. lia.
Qed.

Lemma Qfloor_between (k : Z) (y : Q) :
  (inject_Z k <= y)%Q -> (y < inject_Z (k + 1))%Q -> Qfloor y = k.
Proof.
  intros H1 H2. pose proof (Qfloor_ge k y H1). pose proof (Qfloor_lt (k + 1) y H2). lia.
Qed.

(** [Math.floor(x)] after rounding [x] to a double, for the products of 3
    and a double below 1. *)
Lemma floor_double_round (x : Q) :
  (0 <= x)%Q -> (x <= 27021597764222973 # 9007199254740992)%Q ->
  let lane := Qfloor (double_round x) in
  ((x < 18014398509481983 # 18014398509481984)%Q -> lane = 0)
  /\ ((18014398509481983 # 18014398509481984 <= x)%Q ->
      (x < 18014398509481983 # 9007199254740992)%Q -> lane = 1)
  /\ ((18014398509481983 # 9007199254740992 <= x)%Q -> lane = 2).
Proof.
  intros H0 Hmax. cbv zeta.
  destruct (Qlt_le_dec x (1 # 2)) as [Hh|Hh].
  { destruct (double_round_small x H0 Hh) as [Ha Hb].
    assert (L : Qfloor (double_round x) = 0).
    { apply Qfloor_between; [exact Ha|]. change (inject_Z (0 + 1)) with 1%Q. lra. }
    rewrite L. repeat split; intros; try reflexivity; exfalso; lra. }
  destruct (Qlt_le_dec x 1) as [H1|H1].
  { pose proof (double_round_binade x (-1) ltac:(lia) Hh H1) as Hd.
    change (52 - -1) with 53 in Hd. change (-1 - 52) with (-53) in Hd.
    change (pow2 53) with (inject_Z 9007199254740992) in Hd.
    change (pow2 (-53)) with (1 # 9007199254740992)%Q in Hd.
    set (y := (x * inject_Z 9007199254740992)%Q) in *.
    assert (Hy : (y == x * inject_Z 9007199254740992)%Q) by reflexivity.
    change (inject_Z 9007199254740992) with (9007199254740992 # 1)%Q in Hy.
    pose proof (round_half_even_ge 4503599627370496 y) as Hm0.
    pose proof (round_half_even_le 9007199254740992 y) as Hm1.
    pose proof (round_half_even_reaches 9007199254740992 y eq_refl) as Hm2.
    pose proof (round_half_even_below 9007199254740992 y) as Hm3.
    change (inject_Z 4503599627370496) with (4503599627370496 # 1)%Q in Hm0.
    change (inject_Z 9007199254740992) with (9007199254740992 # 1)%Q in Hm1, Hm2, Hm3.
    set (m := round_half_even y) in *. clearbody y m.
    specialize (Hm0 ltac:(lra)). specialize (Hm1 ltac:(lra)).
    rewrite Zle_Qle in Hm0, Hm1.
    change (inject_Z 4503599627370496) with (4503599627370496 # 1)%Q in Hm0.
    change (inject_Z 9007199254740992) with (9007199254740992 # 1)%Q in Hm1.
    split; [|split].
    - intros Hlt. specialize (Hm3 ltac:(lra)). rewrite Zlt_Qlt in Hm3.
      change (inject_Z 9007199254740992) with (9007199254740992 # 1)%Q in Hm3.
      apply Qfloor_between; change (inject_Z (0 + 1)) with 1%Q;
        change (inject_Z 0) with 0%Q; lra.
    - intros Hge _. specialize (Hm2 ltac:(lra)). rewrite Zle_Qle in Hm2.
      change (inject_Z 9007199254740992) with (9007199254740992 # 1)%Q in Hm2.
      apply Qfloor_between; change (inject_Z (1 + 1)) with 2%Q;
        change (inject_Z 1) with 1%Q; lra.
    - intros Hge. exfalso. lra. }
  destruct (Qlt_le_dec x 2) as [H2|H2].
  { pose proof (double_round_binade x 0 ltac:(lia) H1 H2) as Hd.
    change (52 - 0) with 52 in Hd. change (0 - 52) with (-52) in Hd.
    change (pow2 52) with (inject_Z 4503599627370496) in Hd.
    change (pow2 (-52)) with (1 # 4503599627370496)%Q in Hd.
    set (y := (x * inject_Z 4503599627370496)%Q) in *.
    assert (Hy : (y == x * inject_Z 4503599627370496)%Q) by reflexivity.
    change (inject_Z 4503599627370496) with (4503599627370496 # 1)%Q in Hy.
    pose proof (round_half_even_ge 4503599627370496 y) as Hm0.
    pose proof (round_half_even_le 9007199254740992 y) as Hm1.
    pose proof (round_half_even_reaches 9007199254740992 y eq_refl) as Hm2.
    pose proof (round_half_even_below 9007199254740992 y) as Hm3.
    change (inject_Z 4503599627370496) with (4503599627370496 # 1)%Q in Hm0.
    change (inject_Z 9007199254740992) with (9007199254740992 # 1)%Q in Hm1, Hm2, Hm3.
    set (m := round_half_even y) in *. clearbody y m.
    specialize (Hm0 ltac:(lra)). specialize (Hm1 ltac:(lra)).
    rewrite Zle_Qle in Hm0, Hm1.
    change (inject_Z 4503599627370496) with (4503599627370496 # 1)%Q in Hm0.
    change (inject_Z 9007199254740992) with (9007199254740992 # 1)%Q in Hm1.
    split; [|split].
    - intros Hlt. exfalso. lra.
    - intros _ Hlt. specialize (Hm3 ltac:(lra)). rewrite Zlt_Qlt in Hm3.
      change (inject_Z 9007199254740992) with (9007199254740992 # 1)%Q in Hm3.
      apply Qfloor_between; change (inject_Z (1 + 1)) with 2%Q;
        change (inject_Z 1) with 1%Q; lra.
    - intros Hge. specialize (Hm2 ltac:(lra)). rewrite Zle_Qle in Hm2.
      change (inject_Z 9007199254740992) with (9007199254740992 # 1)%Q in Hm2.
      apply Qfloor_between; change (inject_Z (2 + 1)) with 3%Q;
        change (inject_Z 2) with 2%Q; lra. }
  { assert (H4 : (x < pow2 (1 + 1))%Q) by (change (pow2 (1 + 1)) with 4%Q; lra).
    pose proof (double_round_binade x 1 ltac:(lia) H2 H4) as Hd.
    change (52 - 1) with 51 in Hd. change (1 - 52) with (-51) in Hd.
    change (pow2 51) with (inject_Z 2251799813685248) in Hd.
    change (pow2 (-51)) with (1 # 2251799813685248)%Q in Hd.
    set (y := (x * inject_Z 2251799813685248)%Q) in *.
    assert (Hy : (y == x * inject_Z 2251799813685248)%Q) by reflexivity.
    change (inject_Z 2251799813685248) with (2251799813685248 # 1)%Q in Hy.
    pose proof (round_half_even_ge 4503599627370496 y) as Hm0.
    pose proof (round_half_even_below 6755399441055744 y) as Hm3.
    change (inject_Z 4503599627370496) with (4503599627370496 # 1)%Q in Hm0.
    change (inject_Z 6755399441055744) with (6755399441055744 # 1)%Q in Hm3.
    set (m := round_half_even y) in *. clearbody y m.
    specialize (Hm0 ltac:(lra)). specialize (Hm3 ltac:(lra)).
    rewrite Zle_Qle in Hm0. rewrite Zlt_Qlt in Hm3.
    change (inject_Z 4503599627370496) with (4503599627370496 # 1)%Q in Hm0.
    change (inject_Z 6755399441055744) with (6755399441055744 # 1)%Q in Hm3.
    assert (L : Qfloor (double_round x) = 2).
    { apply Qfloor_between; change (inject_Z (2 + 1)) with 3%Q;
        change (inject_Z 2) with 2%Q; lra. }
    rewrite L. repeat split; intros; try reflexivity; exfalso; lra. }
Qed.

(** A double below 1 is at most 1 - 2^-53. *)
Lemma double_below_one (r : Q) :
  is_double r -> (r < 1)%Q -> (r <= 9007199254740991 # 9007199254740992)%Q.
Proof.
  intros Hd H1. apply Qnot_lt_le. intros Hr.
  assert (Hh : (pow2 (-1) <= r)%Q) by (change (pow2 (-1)) with (1 # 2)%Q; lra).
  pose proof (double_round_binade r (-1) ltac:(lia) Hh H1) as Hb.
  unfold is_double in Hd. rewrite Hd in Hb.
  change (52 - -1) with 53 in Hb. change (-1 - 52) with (-53) in Hb.
  change (pow2 53) with (inject_Z 9007199254740992) in Hb.
  change (pow2 (-53)) with (1 # 9007199254740992)%Q in Hb.
  set (m := round_half_even (r * inject_Z 9007199254740992)) in *. clearbody m.
  assert (Hlo : (inject_Z 9007199254740991 < inject_Z m)%Q).
  { change (inject_Z 9007199254740991) with (9007199254740991 # 1)%Q. lra. }
  assert (Hhi : (inject_Z m < inject_Z 9007199254740992)%Q).
  { change (inject_Z 9007199254740992) with (9007199254740992 # 1)%Q. lra. }
  rewrite <- Zlt_Qlt in Hlo, Hhi. lia.
Qed.

(** The lane chosen by [Math.floor(Math.random() * 3)]. *)
Lemma lane_of_draw (r : Q) :
  is_double r -> (0 <= r)%Q -> (r < 1)%Q ->
  let lane := Qfloor (double_round (r * 3)) in
  0 <= lane <= 2
  /\ (lane = 0 <-> (r * 3 < 18014398509481983 # 18014398509481984)%Q)
  /\ (lane = 1 <-> (18014398509481983 # 18014398509481984 <= r * 3)%Q
                   /\ (r * 3 < 18014398509481983 # 9007199254740992)%Q)
  /\ (lane = 2 <-> (18014398509481983 # 9007199254740992 <= r * 3)%Q).
Proof.
  intros Hd H0 H1. cbv zeta.
  pose proof (double_below_one r Hd H1) as Hmax.
  destruct (floor_double_round (r * 3)) as (F0 & F1 & F2); [lra|lra|].
  cbv zeta in F0, F1, F2.
  set (lane := Qfloor (double_round (r * 3))) in *. clearbody lane.
  destruct (Qlt_le_dec (r * 3) (18014398509481983 # 18014398509481984)) as [A|A].
  - rewrite (F0 A). repeat split; intros; try lia; try lra; try discriminate.
  - destruct (Qlt_le_dec (r * 3) (18014398509481983 # 9007199254740992)) as [B|B].
    + rewrite (F1 A B). repeat split; intros; try lia; try lra; try discriminate.
    + rewrite (F2 B). repeat split; intros; try lia; try lra; try discriminate.
Qed.

(** The doubles that the literals 0.8 and 0.6 denote. *)
Lemma literal_values :
  lit_0_8 = 3602879701896397 # 4503599627370496
  /\ lit_0_6 = 5404319552844595 # 9007199254740992.
Proof. split; vm_compute; reflexivity. Qed.

End Doubles.

Section Spawning.

Context {W : Type}.
Implicit Types (g : GameEngine W) (w : W).

(** C6. [spawnItem] appends one item to the collection.  Its lane is
    [Math.floor] of the double product of the lane draw and 3: for a draw
    in [0,1) it is 0, 1 or 2, and each lane is chosen on an interval of
    draws whose ends are within 2^-53 of a multiple of 1/3, so uniformly
    for a uniform draw.  The item is a bomb iff the level is at least 2
    and the roll exceeds 0.8 (never at level 1), otherwise a grape iff the
    roll exceeds 0.6, otherwise an apple; 0.8 and 0.6 are the doubles that
    the literals of the source denote, within 2^-53 of 8/10 and 6/10.  The
    item starts at vertical position -50, active, at the x-coordinate of
    its lane. *)
Theorem spawnItem_item g (r_lane typeRoll : Q) :
  is_double r_lane -> (0 <= r_lane)%Q -> (r_lane < 1)%Q ->
  exists item,
    spawnItem g r_lane typeRoll = set_items g (items g ++ [item])
    /\ Item.y item = -50 /\ Item.active item = true
    /\ (Item.lane item = 0 \/ Item.lane item = 1 \/ Item.lane item = 2)
    /\ Item.lane item = Qfloor (double_round (r_lane * 3))
    /\ (Item.lane item = 0 <->
          (r_lane * 3 < 1 - (1 # 18014398509481984))%Q)
    /\ (Item.lane item = 1 <->
          (1 - (1 # 18014398509481984) <= r_lane * 3)%Q
          /\ (r_lane * 3 < 2 - (1 # 9007199254740992))%Q)
    /\ (Item.lane item = 2 <->
          (2 - (1 # 9007199254740992) <= r_lane * 3)%Q)
    /\ Item.x item = nth_error lanes (Z.to_nat (Item.lane item))
    /\ (Item.type item = bomb <-> 2 <= level g /\ (lit_0_8 < typeRoll)%Q)
    /\ (Item.type item = grape <->
          ~ (2 <= level g /\ (lit_0_8 < typeRoll)%Q) /\ (lit_0_6 < typeRoll)%Q)
    /\ (Item.type item = apple <->
          ~ (2 <= level g /\ (lit_0_8 < typeRoll)%Q) /\ ~ (lit_0_6 < typeRoll)%Q)
    /\ (level g = 1 -> Item.type item <> bomb)
    /\ ((8 # 10 <= lit_0_8)%Q /\ (lit_0_8 <= (8 # 10) + (1 # 9007199254740992))%Q)
    /\ ((6 # 10) - (1 # 9007199254740992) <= lit_0_6)%Q /\ (lit_0_6 <= 6 # 10)%Q.
Proof.
  intros Hd H0 H1. unfold spawnItem.
  set (laneIndex := Qfloor (double_round (r_lane * 3))).
  set (ty := if (level g >=? 2) && Qlt_bool lit_0_8 typeRoll then bomb
             else if Qlt_bool lit_0_6 typeRoll then grape else apple).
  exists (Item.mk (lanes_at laneIndex) (-50) laneIndex ty true).
  cbn [Item.y Item.active Item.lane Item.x Item.type].
  destruct (lane_of_draw r_lane Hd H0 H1) as (Hrange & L0 & L1 & L2).
  fold laneIndex in Hrange, L0, L1, L2.
  assert (Hbomb : ty = bomb <-> 2 <= level g /\ (lit_0_8 < typeRoll)%Q).
  { subst ty. rewrite <- Qlt_bool_iff.
    destruct (Z.geb_spec (level g) 2); cbn [andb];
      destruct (Qlt_bool lit_0_8 typeRoll); try destruct (Qlt_bool lit_0_6 typeRoll);
      split; intros; try discriminate; try reflexivity; try lia; intuition (try discriminate; lia). }
  assert (Hgrape : ty = grape <->
            ~ (2 <= level g /\ (lit_0_8 < typeRoll)%Q) /\ (lit_0_6 < typeRoll)%Q).
  { rewrite <- Hbomb. subst ty. rewrite <- Qlt_bool_iff.
    destruct ((level g >=? 2) && Qlt_bool lit_0_8 typeRoll);
      destruct (Qlt_bool lit_0_6 typeRoll);
      split; intros; try discriminate; try reflexivity; intuition (try discriminate; congruence). }
  assert (Happle : ty = apple <->
            ~ (2 <= level g /\ (lit_0_8 < typeRoll)%Q) /\ ~ (lit_0_6 < typeRoll)%Q).
  { rewrite <- Hbomb. subst ty. rewrite <- Qlt_bool_iff.
    destruct ((level g >=? 2) && Qlt_bool lit_0_8 typeRoll);
      destruct (Qlt_bool lit_0_6 typeRoll);
      split; intros; try discriminate; try reflexivity; intuition (try discriminate; congruence). }
  split; [reflexivity|]. split; [reflexivity|]. split; [reflexivity|].
  split; [clearbody laneIndex; lia|].
  split; [reflexivity|].
  split; [rewrite L0; split; intros; lra|].
  split; [rewrite L1; split; intros; lra|].
  split; [rewrite L2; split; intros; lra|].
  split.
  { unfold lanes_at. replace (laneIndex <? 0) with false; [reflexivity|].
    symmetry. apply Z.ltb_ge. clearbody laneIndex. lia. }
  split; [exact Hbomb|]. split; [exact Hgrape|]. split; [exact Happle|].
  split; [intros Hl Hb; apply Hbomb in Hb; lia|].
  destruct literal_values as [-> ->].
  repeat split; unfold Qle; cbn; lia.
Qed.

End Spawning.

(** ** Rounds driven by main.js *)

Section Rounds.

Context {W : Type}.
Implicit Types (g : GameEngine W) (w : W) (item : Item.t) (l : list Item.t).

Lemma updateItems_loop_cons speed g w item l :
  updateItems_loop speed g w (item :: l)
  = let r1 := updateItem speed g w item in
    let r2 := updateItems_loop speed (fst (fst r1)) (snd (fst r1)) l in
    (fst (fst r2), snd (fst r2), snd r1 :: snd r2).
Proof.
  cbn [updateItems_loop].
  destruct (updateItem speed g w item) as [[g1 w1] i1]. cbn [fst snd].
  destruct (updateItems_loop speed g1 w1 l) as [[g2 w2] l2]. reflexivity.
Qed.

(** Items that stay above the band leave engine and world alone. *)
Lemma loop_above_band speed l : forall g w,
  Forall (fun it => Item.active it = true /\ Item.y it + speed <= 500) l ->
  fst (updateItems_loop speed g w l) = (g, w).
Proof.
  induction l as [|a rest IH]; intros g w Hall.
  - reflexivity.
  - rewrite updateItems_loop_cons. cbv zeta.
    inversion Hall as [|? ? [Ha Hy] Hrest]; subst.
    rewrite (updateItem_missed speed g w a Ha) by (unfold caught; lia).
    cbn [fst snd].
    specialize (IH g w Hrest).
    destruct (updateItems_loop speed g w rest) as [[g2 w2] l2].
    cbn in *. exact IH.
Qed.

(** In one pass over well separated items the callback runs at most
    once; when it runs, the round is inactive afterwards and the callback
    got the score and level that the engine ends the pass with. *)
Lemma loop_calls speed (cb : Callback W) l : forall g w,
  onGameEnd g = Some cb ->
  Forall (fun it => Item.active it = true) l ->
  StronglySorted ahead l ->
  let g' := fst (fst (updateItems_loop speed g w l)) in
  let w' := snd (fst (updateItems_loop speed g w l)) in
  (isGameActive g' = isGameActive g /\ w' = w)
  \/ (isGameActive g' = false /\ w' = cb (score g') (level g') w).
Proof.
  induction l as [|a rest IH]; intros g w Hcb Hact Hsort; cbv zeta.
  - left. split; reflexivity.
  - rewrite updateItems_loop_cons. cbv zeta. cbn [fst snd].
    inversion Hact as [|? ? Ha Hrest]; subst.
    apply StronglySorted_inv in Hsort as [Hsort Hahead].
    destruct (caught_dec g (Item.y a + speed) a) as [Hc|Hn].
    + rewrite (updateItem_caught speed g w a Ha Hc).
      set (r := handleCollision g w (Item.set_y a (Item.y a + speed))).
      assert (Habove : Forall (fun it => Item.active it = true
                                         /\ Item.y it + speed <= 500) rest).
      { rewrite Forall_forall in *. intros b Hb. split; [auto|].
        specialize (Hahead b Hb). unfold ahead in Hahead.
        destruct Hc as [[_ Hc] _]. lia. }
      rewrite (loop_above_band speed rest (fst (fst r)) (snd (fst r)) Habove).
      cbn [fst snd]. subst r. unfold handleCollision.
      change (Item.type (Item.set_y a (Item.y a + speed))) with (Item.type a).
      destruct (Item.type a).
      * left. split; reflexivity.
      * left. split; reflexivity.
      * right. unfold stop. cbn. rewrite Hcb. cbn. split; reflexivity.
    + rewrite (updateItem_missed speed g w a Ha Hn). cbn [fst snd].
      apply (IH g w Hcb Hrest Hsort).
Qed.

(** Every item that was active has moved by the speed. *)
Lemma loop_moves speed l : forall g w,
  Forall (fun it => Item.active it = true) l ->
  Forall2 (fun a b => Item.y b = Item.y a + speed) l
          (snd (updateItems_loop speed g w l)).
Proof.
  induction l as [|a rest IH]; intros g w Hact.
  - constructor.
  - rewrite updateItems_loop_cons. cbv zeta. cbn [snd].
    inversion Hact as [|? ? Ha Hrest]; subst.
    constructor.
    + apply updateItem_moves; exact Ha.
    + apply IH; exact Hrest.
Qed.

Lemma moved_sorted speed l l' :
  Forall2 (fun a b => Item.y b = Item.y a + speed) l l' ->
  StronglySorted ahead l -> StronglySorted ahead l'.
Proof.
  intros H. induction H as [|a b l l' Hab Hll IH]; intros Hs.
  - constructor.
  - apply StronglySorted_inv in Hs as [Hs Ha].
    constructor; [apply IH; exact Hs|].
    clear IH Hs. induction Hll as [|c d l l' Hcd Hll IH].
    + constructor.
    + inversion Ha; subst. constructor; [unfold ahead in *; lia|auto].
Qed.

Lemma moved_lower_bound speed lo l l' :
  Forall2 (fun a b => Item.y b = Item.y a + speed) l l' ->
  Forall (fun it => lo <= Item.y it) l ->
  Forall (fun it => lo + speed <= Item.y it) l'.
Proof.
  intros H. induction H as [|a b l l' Hab Hll IH]; intros Hlo.
  - constructor.
  - inversion Hlo; subst. constructor; [lia|auto].
Qed.

Lemma filter_sorted (f : Item.t -> bool) l :
  StronglySorted ahead l -> StronglySorted ahead (filter f l).
Proof.
  induction l as [|a l IH]; intros Hs; cbn.
  - constructor.
  - apply StronglySorted_inv in Hs as [Hs Ha].
    destruct (f a); [|auto].
    constructor; [auto|].
    rewrite Forall_forall in *. intros b Hb.
    apply filter_In in Hb. apply Ha. tauto.
Qed.

Lemma filter_Forall (P : Item.t -> Prop) (f : Item.t -> bool) l :
  Forall P l -> Forall P (filter f l).
Proof.
  rewrite !Forall_forall. intros H b Hb. apply filter_In in Hb. apply H. tauto.
Qed.

Lemma spaced_weaken lo lo' l : lo' <= lo -> spaced lo l -> spaced lo' l.
Proof.
  intros Hle (Ha & Hs & Hlo). repeat split; auto.
  eapply Forall_impl; [|exact Hlo]. cbn. intros; lia.
Qed.

(** A new item at -50 goes behind items that are all at 10 or below. *)
Lemma spaced_push lo l item :
  spaced lo l -> 10 <= lo ->
  Item.active item = true -> Item.y item = -50 ->
  spaced (-50) (l ++ [item]).
Proof.
  intros (Ha & Hs & Hlo) H10 Hact Hy. repeat split.
  - apply Forall_app. split; [exact Ha|]. constructor; [exact Hact|constructor].
  - clear Ha. induction l as [|a l IH]; cbn.
    + constructor; constructor.
    + apply StronglySorted_inv in Hs as [Hs Hahead].
      inversion Hlo; subst.
      constructor; [auto|].
      apply Forall_app. split; [exact Hahead|].
      constructor; [unfold ahead; lia|constructor].
  - apply Forall_app. split.
    + eapply Forall_impl; [|exact Hlo]. cbn. intros; lia.
    + constructor; [lia|constructor].
Qed.

(** One pass of [updateItems] keeps the items separated; they are at
    least one step of speed 5 further down. *)
Lemma updateItems_spaced lo g w :
  1 <= level g ->
  spaced lo (items g) ->
  spaced (lo + 5) (items (fst (updateItems g w))).
Proof.
  intros Hlv (Ha & Hs & Hlo). unfold updateItems.
  set (speed := 3 + level g * 2).
  pose proof (loop_moves speed (items g) g w Ha) as Hmv.
  destruct (updateItems_loop speed g w (items g)) as [[g1 w1] l1].
  cbn [fst snd items set_items] in *.
  repeat split.
  - rewrite Forall_forall. intros b Hb. apply filter_In in Hb. tauto.
  - apply filter_sorted. exact (moved_sorted speed _ _ Hmv Hs).
  - apply filter_Forall.
    pose proof (moved_lower_bound speed lo _ _ Hmv Hlo) as H.
    eapply Forall_impl; [|exact H]. subst speed. intros a; cbv beta; lia.
Qed.

Lemma updateItems_settings g w :
  spawnTimer (fst (updateItems g w)) = spawnTimer g
  /\ onGameEnd (fst (updateItems g w)) = onGameEnd g.
Proof.
  unfold updateItems.
  pose proof (updateItems_loop_settings (3 + level g * 2) (items g) g w) as H.
  destruct (updateItems_loop _ g w (items g)) as [[g1 w1] l1].
  cbn in *. unfold same_settings in H. tauto.
Qed.

Lemma start_well_spaced g config now : well_spaced (start g config now).
Proof. repeat split; constructor. Qed.

Lemma updateItems_outcome (cb : Callback W) lo g w :
  onGameEnd g = Some cb -> isGameActive g = true ->
  spaced lo (items g) ->
  outcome cb w (updateItems g w).
Proof.
  intros Hcb Hact (Ha & Hs & _). unfold updateItems, outcome.
  pose proof (loop_calls (3 + level g * 2) cb (items g) g w Hcb Ha Hs) as H.
  cbv zeta in H.
  destruct (updateItems_loop _ g w (items g)) as [[g1 w1] l1].
  cbn [fst snd] in *. cbn [isGameActive score level set_items].
  rewrite Hact in H. exact H.
Qed.

(** One [update()] of an active round. *)
Lemma update_round (cb : Callback W) g w now r_lane typeRoll :
  well_spaced g -> isGameActive g = true -> onGameEnd g = Some cb ->
  well_spaced (fst (update g w now r_lane typeRoll))
  /\ onGameEnd (fst (update g w now r_lane typeRoll)) = Some cb
  /\ outcome cb w (update g w now r_lane typeRoll).
Proof.
  intros Hws Hact Hcb. unfold update. rewrite Hact. cbn [negb].
  set (lv := levelAt (elapsedSeconds g now)).
  pose proof (levelAt_range (elapsedSeconds g now)) as Hlv. fold lv in Hlv.
  match goal with |- context [if ?c then _ else _] => destruct c end.
  - unfold stop. cbn. rewrite Hcb. cbn.
    split; [exact Hws|]. split; [exact Hcb|].
    right. split; reflexivity.
  - set (g1 := set_spawnTimer (set_level g lv) (spawnTimer (set_level g lv) + 1)).
    set (g2 := if Z.max 20 (60 - level g1 * 10) <? spawnTimer g1
               then set_spawnTimer (spawnItem g1 r_lane typeRoll) 0 else g1).
    assert (H2 : level g2 = lv /\ isGameActive g2 = true /\ onGameEnd g2 = Some cb
                 /\ spaced (-50 + 5 * spawnTimer g2) (items g2)).
    { subst g2. destruct (Z.ltb_spec (Z.max 20 (60 - level g1 * 10)) (spawnTimer g1)) as [Hsp|Hsp].
      - assert (Hpush : spaced (-50) (items (spawnItem g1 r_lane typeRoll))).
        { unfold spawnItem. cbn [items set_items]. subst g1. cbn [items set_spawnTimer set_level].
          apply (spaced_push (-50 + 5 * (spawnTimer g + 1))).
          - exact Hws.
          - cbn in Hsp. lia.
          - reflexivity.
          - reflexivity. }
        split; [reflexivity|]. split; [exact Hact|]. split; [exact Hcb|].
        exact Hpush.
      - cbn. repeat split; auto; apply Hws. }
    destruct H2 as (Hl2 & Ha2 & Hc2 & Hs2).
    destruct (updateItems_settings g2 w) as [Ht Hc].
    split; [|split].
    + unfold well_spaced. rewrite Ht.
      replace (-50 + 5 * (spawnTimer g2 + 1)) with (-50 + 5 * spawnTimer g2 + 5) by lia.
      apply updateItems_spaced; [lia|exact Hs2].
    + rewrite Hc. exact Hc2.
    + exact (updateItems_outcome cb _ g2 w Hc2 Ha2 Hs2).
Qed.

Lemma onPoseDetected_round g p :
  items (onPoseDetected g p) = items g
  /\ spawnTimer (onPoseDetected g p) = spawnTimer g
  /\ onGameEnd (onPoseDetected g p) = onGameEnd g
  /\ isGameActive (onPoseDetected g p) = isGameActive g
  /\ score (onPoseDetected g p) = score g
  /\ level (onPoseDetected g p) = level g.
Proof.
  unfold onPoseDetected.
  destruct (negb (isGameActive g)); [repeat split|].
  destruct (String.eqb p pose_left); [repeat split|].
  destruct (String.eqb p pose_center); [repeat split|].
  destruct (String.eqb p pose_right); repeat split.
Qed.

(** One event of the page.  On an inactive round it does nothing. *)
Lemma step_round (cb : Callback W) g w (e : Event) :
  well_spaced g -> onGameEnd g = Some cb ->
  well_spaced (fst (step (g, w) e))
  /\ onGameEnd (fst (step (g, w) e)) = Some cb
  /\ (isGameActive g = true -> outcome cb w (step (g, w) e))
  /\ (isGameActive g = false -> step (g, w) e = (g, w)).
Proof.
  intros Hws Hcb.
  assert (Hidle : well_spaced (fst (g, w)) /\ onGameEnd (fst (g, w)) = Some cb
                  /\ (isGameActive g = true -> outcome cb w (g, w))
                  /\ (isGameActive g = false -> (g, w) = (g, w))).
  { split; [exact Hws|]. split; [exact Hcb|]. split; [|reflexivity].
    intros Hact. left. split; [exact Hact|reflexivity]. }
  destruct e as [|c|now now' r_lane typeRoll]; cbn [step].
  - unfold main_stop. destruct (isGameActive g) eqn:Hact; [|exact Hidle].
    unfold stop. cbn. rewrite Hcb. cbn.
    split; [exact Hws|]. split; [exact Hcb|]. split; [|discriminate].
    intros _. right. split; reflexivity.
  - unfold handlePrediction. destruct c as [name|]; [|exact Hidle].
    destruct (isGameActive g) eqn:Hact; cbn [andb]; [|exact Hidle].
    destruct (negb (String.eqb name "")); [|exact Hidle].
    destruct (onPoseDetected_round g name) as (Hi & Ht & Hc & Ha & _).
    unfold well_spaced, outcome. cbn [fst snd]. rewrite Hi, Ht, Hc, Ha.
    split; [exact Hws|]. split; [exact Hcb|]. split; [|discriminate].
    intros _. left. split; [exact Hact|reflexivity].
  - unfold drawPose. destruct (isGameActive g) eqn:Hact; [|exact Hidle].
    destruct (update_round cb g w now r_lane typeRoll Hws Hact Hcb) as (H1 & H2 & H3).
    destruct (update g w now r_lane typeRoll) as [g' w']. cbn [fst snd] in *.
    split; [exact H1|]. split; [exact H2|]. split; [|discriminate].
    intros _. exact H3.
Qed.

(** Any sequence of events of the page keeps the outcome of the round. *)
Lemma run_round (cb : Callback W) (w0 : W) (es : list Event) : forall g w,
  well_spaced g -> onGameEnd g = Some cb ->
  outcome cb w0 (g, w) -> outcome cb w0 (run (g, w) es).
Proof.
  induction es as [|e es IH]; intros g w Hws Hcb Hout; cbn [run fold_left].
  - exact Hout.
  - destruct (step_round cb g w e Hws Hcb) as (H1 & H2 & H3 & H4).
    destruct (isGameActive g) eqn:Hact.
    + specialize (H3 eq_refl).
      destruct Hout as [[_ Hw]|[Hf _]]; [|cbn in Hf; congruence].
      cbn in Hw. subst w.
      destruct (step (g, w0) e) as [g' w'] eqn:E. cbn [fst] in *.
      apply (IH g' w' H1 H2 H3).
    + rewrite (H4 eq_refl). apply (IH g w Hws Hcb Hout).
Qed.

End Rounds.

(** * Rounds with a recording callback *)

(** Scenario: 61 seconds into a round of 60 the tick stops the round, and
    the callback receives score 0 and level 3. *)
Example timeout_scenario :
  update fresh [] 61000 0 0
  = (set_isGameActive (set_level fresh 3) false, [(0, 3)]).
Proof. reflexivity. Qed.

(** Scenario: an apple at 530 in the basket's lane is caught by the next
    tick: score 100, item removed. *)
Example apple_scenario :
  let r := update (holding [Item.mk (Some 300) 530 1 apple true]) [] 1000 0 0 in
  score (fst r) = 100 /\ items (fst r) = [] /\ isGameActive (fst r) = true
  /\ snd r = [].
Proof. cbv zeta. repeat split; reflexivity. Qed.

(** Scenario: a bomb at 510 in the basket's lane ends the round in the next
    tick. *)
Example bomb_scenario :
  let r := update (holding [Item.mk (Some 300) 510 1 bomb true]) [] 1000 0 0 in
  score (fst r) = 0 /\ items (fst r) = [] /\ isGameActive (fst r) = false
  /\ snd r = [(0, 1)].
Proof. cbv zeta. repeat split; reflexivity. Qed.

(** Two bombs placed by hand 10 apart in the basket's lane are both in the
    band in one tick, and the callback runs for each of them.  The engine
    never spawns items that close together ([well_spaced]). *)
Example two_bombs_by_hand :
  snd (update (holding [Item.mk (Some 300) 530 1 bomb true;
                        Item.mk (Some 300) 520 1 bomb true]) [] 1000 0 0)
  = [(0, 1); (0, 1)].
Proof. reflexivity. Qed.

(** A roll equal to the double 0.8 does not exceed the literal 0.8: at
    level 2 it gives a grape, not a bomb. *)
Example roll_equal_to_literal :
  items (spawnItem (set_level fresh 2) 0 lit_0_8)
  = [Item.mk (Some 100) (-50) 0 grape true].
Proof. vm_compute. reflexivity. Qed.

(** The largest double below 2/3: its product with 3 rounds to 2, so the
    lane is 2. *)
Example lane_draw_below_two_thirds :
  is_double (6004799503160661 # 9007199254740992)
  /\ items (spawnItem fresh (6004799503160661 # 9007199254740992) 0)
     = [Item.mk (Some 500) (-50) 2 apple true].
Proof. split; vm_compute; reflexivity. Qed.

(** Two clicks on stop in main.js, then a late frame: the second click and
    the frame find the round inactive, and the callback has run once. *)
Example stop_clicked_twice :
  snd (run (fresh, []) [Frame 1000 1001 0 0; StopClicked; StopClicked;
                        Frame 61000 61001 0 0])
  = [(0, 1)].
Proof. reflexivity. Qed.

(** C1, the claim as stated fails: [stop()] has no guard of its own.
    Called twice in a row on a running round it calls the callback twice,
    the second time on a round that is already inactive. *)
Lemma stop_twice_calls_twice :
  let r1 := stop fresh [] in
  let r2 := stop (fst r1) (snd r1) in
  isGameActive fresh = true
  /\ isGameActive (fst r1) = false /\ snd r1 = [(0, 1)]
  /\ isGameActive (fst r2) = false /\ snd r2 = [(0, 1); (0, 1)]
  /\ List.length (snd r2) <> 1%nat.
Proof. cbv zeta. repeat split; try reflexivity. discriminate. Qed.

(** C1 as amended. Take a round started by [startGameMode] and driven by
    the page: clicks on stop (main.js calls the engine's [stop()] only
    while the round is active), predictions and frames, in any number and
    order.  While the round is active the callback has not been called;
    once it is inactive the callback has been called exactly once, with the
    final score and level, however many events follow.  The engine's own
    [stop()] is not guarded: every call of it calls the registered
    callback once, active round or not. *)
Theorem round_end_once (g0 : GameEngine Calls) (config : Config) (now : Z)
        (es : list Event) (calls : Calls) :
  let r := run (startGameMode g0 recorder config now, calls) es in
  ((isGameActive (fst r) = true /\ snd r = calls)
   \/ (isGameActive (fst r) = false
       /\ snd r = calls ++ [(score (fst r), level (fst r))]))
  /\ (forall (g : GameEngine Calls) (c : Calls),
        snd (stop (setGameEndCallback g (Some recorder)) c)
        = c ++ [(score g, level g)]).
Proof.
  cbv zeta. split.
  - apply (run_round recorder calls es).
    + apply start_well_spaced.
    + reflexivity.
    + left. split; reflexivity.
  - intros g c. reflexivity.
Qed.

(** C2, the claim as stated fails at the lower end of the band.  An apple
    at 495 in the basket's lane moves to exactly 500 in a level-1 tick of
    an active round; 500 is in [500,560), yet no collision is resolved: the
    item stays in the collection, active, and the score is unchanged. *)
Lemma band_excludes_500 :
  let g := holding [Item.mk (Some 300) 495 1 apple true] in
  let r := update g [] 1000 0 0 in
  isGameActive g = true
  /\ items (fst r) = [Item.mk (Some 300) 500 1 apple true]
  /\ (500 <= 500 < 560 /\ 1 = basketPosition g)
  /\ score (fst r) = score g
  /\ fst r <> fst (fst (handleCollision g [] (Item.mk (Some 300) 500 1 apple true))).
Proof.
  cbv zeta. repeat split; try reflexivity; try lia.
  intros H. apply (f_equal score) in H. discriminate H.
Qed.

(** C5, the claim as stated fails for a fractional elapsed time.  Half a
    second into a round of 60 seconds [render] shows 60, while
    max(0, 60 - 0.5) rounded down is 59. *)
Lemma remaining_not_floored :
  timeLimit fresh = 60
  /\ elapsedSeconds fresh 500 = Some (Qmake 500 1000)
  /\ remainingTime fresh 500 = Some 60
  /\ Qfloor (Qmax 0 (inject_Z (timeLimit fresh) - Qmake 500 1000)) = 59
  /\ remainingTime fresh 500
     <> Some (Qfloor (Qmax 0 (inject_Z (timeLimit fresh) - Qmake 500 1000)))
  /\ In (FillText (TimeText (Some 60)) (Some 450) 50) (render fresh 500).
Proof.
  repeat split; try reflexivity.
  - discriminate.
  - cbn. do 20 right. left. reflexivity.
Qed.

(** * The theorems at concrete inputs *)

(** [onPoseDetected_lanes] on a running round and on a stopped one. *)
Lemma onPoseDetected_lanes_witness :
  (onPoseDetected fresh pose_left = set_basketPosition fresh 0
   /\ onPoseDetected fresh pose_center = set_basketPosition fresh 1
   /\ onPoseDetected fresh pose_right = set_basketPosition fresh 2)
  /\ onPoseDetected (fst (stop fresh [])) pose_left = fst (stop fresh [])
  /\ basketPosition (onPoseDetected fresh "jump") = basketPosition fresh.
Proof.
  split; [|split].
  - apply (proj1 (onPoseDetected_lanes fresh)). reflexivity.
  - apply (proj1 (proj2 (onPoseDetected_lanes (fst (stop fresh []))))). reflexivity.
  - apply (proj2 (proj2 (onPoseDetected_lanes fresh))); discriminate.
Defined.

(** [handleCollision_effect] for a bomb caught at score 0, level 1. *)
Lemma handleCollision_effect_witness :
  onGameEnd fresh = Some recorder
  /\ let '(g', w', item') :=
       handleCollision fresh [] (Item.mk (Some 300) 505 1 bomb true) in
     Item.active item' = false
     /\ (forall g2 (w2 : Calls), ~ In item' (items (fst (updateItems g2 w2))))
     /\ level g' = level fresh
     /\ score g' = score fresh
     /\ isGameActive g' = false /\ w' = recorder (score fresh) (level fresh) [].
Proof.
  split; [reflexivity|].
  exact (handleCollision_effect fresh [] (Item.mk (Some 300) 505 1 bomb true)
                                recorder eq_refl).
Defined.

(** [updateItem_collision] for an apple that moves from 500 to 505 in the
    basket's lane. *)
Lemma updateItem_collision_witness :
  let item := Item.mk (Some 300) 500 1 apple true in
  Item.active item = true
  /\ (caught fresh 505 item <->
        Item.active (snd (updateItem 5 fresh [] item)) = false
        /\ Item.y (snd (updateItem 5 fresh [] item)) <= 650).
Proof.
  cbv zeta. split; [reflexivity|].
  exact (proj2 (proj2 (updateItem_collision 5 fresh []
                         (Item.mk (Some 300) 500 1 apple true) eq_refl))).
Defined.

(** [update_level] 20 seconds into the round. *)
Lemma update_level_witness :
  isGameActive fresh = true /\ startTime fresh = Some 0
  /\ (20 <= Qmake (20000 - 0) 1000)%Q /\ (Qmake (20000 - 0) 1000 < 40)%Q
  /\ level (fst (update fresh [] 20000 0 0)) = 2.
Proof.
  assert (H1 : (20 <= Qmake (20000 - 0) 1000)%Q) by (unfold Qle; cbn; lia).
  assert (H2 : (Qmake (20000 - 0) 1000 < 40)%Q) by reflexivity.
  split; [reflexivity|]. split; [reflexivity|]. split; [exact H1|]. split; [exact H2|].
  exact (proj1 (proj2 (update_level fresh [] 20000 0 0 0 eq_refl eq_refl)) H1 H2).
Defined.

(** [render_remaining] half a second into the round. *)
Lemma render_remaining_witness :
  startTime fresh = Some 0
  /\ remainingTime fresh 500 = Some 60
  /\ 60 = Qceiling (Qmax 0 (inject_Z (timeLimit fresh) - Qmake (500 - 0) 1000)).
Proof.
  split; [reflexivity|].
  destruct (render_remaining fresh 500 0 eq_refl) as (H1 & _ & H3).
  split; [exact H1|exact H3].
Defined.

(** [spawnItem_item] at level 1 with the doubles 1/2 and 0.8: the roll
    does not exceed 0.8, so even at level 2 there would be no bomb. *)
Lemma spawnItem_item_witness :
  is_double (1 # 2) /\ (0 <= 1 # 2)%Q /\ (1 # 2 < 1)%Q
  /\ exists item,
       spawnItem fresh (1 # 2) lit_0_8 = set_items fresh (items fresh ++ [item])
       /\ Item.y item = -50 /\ Item.active item = true
       /\ Item.lane item = 1 /\ Item.type item = grape.
Proof.
  assert (Hd : is_double (1 # 2)) by (vm_compute; reflexivity).
  assert (H0 : (0 <= 1 # 2)%Q) by (unfold Qle; cbn; lia).
  assert (H1 : (1 # 2 < 1)%Q) by reflexivity.
  split; [exact Hd|]. split; [exact H0|]. split; [exact H1|].
  destruct (spawnItem_item fresh (1 # 2) lit_0_8 Hd H0 H1)
    as (item & Hs & Hy & Ha & _ & _ & _ & Hlane & _ & _ & Hbomb & Hgrape & _).
  exists item. split; [exact Hs|]. split; [exact Hy|]. split; [exact Ha|].
  split.
  - apply Hlane. split; [unfold Qle; cbn; lia|reflexivity].
  - apply Hgrape. split.
    + intros [Hl _]. cbn in Hl. lia.
    + vm_compute. reflexivity.
Defined.


(** * One pass of [updateItems], exactly *)

Section Pass.

Context {W : Type}.
Implicit Types (g : GameEngine W) (w : W) (item : Item.t) (l : list Item.t).

Lemma caughtb_caught g speed item :
  caughtb (basketPosition g) speed item = true
  <-> caught g (Item.y item + speed) item.
Proof.
  unfold caughtb, caught. rewrite !andb_true_iff, !Z.ltb_lt, Z.eqb_eq. tauto.
Qed.

Lemma handleCollision_engine g w item :
  fst (fst (handleCollision g w item))
  = if is_bomb item then set_isGameActive g false
    else set_score g (score g + points item).
Proof.
  unfold handleCollision, is_bomb, points, stop.
  destruct (Item.type item); cbn; try reflexivity.
  destruct (onGameEnd g); reflexivity.
Qed.

Lemma handleCollision_world g w item :
  snd (fst (handleCollision g w item))
  = if is_bomb item
    then match onGameEnd g with
         | Some cb => cb (score g) (level g) w
         | None => w
         end
    else w.
Proof.
  unfold handleCollision, is_bomb, stop.
  destruct (Item.type item); cbn; try reflexivity.
  destruct (onGameEnd g); reflexivity.
Qed.

(** The body of the loop, by cases on the item. *)
Lemma updateItem_pass speed g w item :
  updateItem speed g w item
  = if hits (basketPosition g) speed item
    then handleCollision g w (moved speed item)
    else (g, w, if Item.active item
                then Item.set_active (moved speed item)
                                     (negb (650 <? Item.y item + speed))
                else item).
Proof.
  unfold hits. destruct (Item.active item) eqn:Hact; cbn [andb].
  - destruct (caughtb (basketPosition g) speed item) eqn:Hc.
    + apply updateItem_caught; [exact Hact|]. apply caughtb_caught; exact Hc.
    + apply updateItem_missed; [exact Hact|].
      intros H. apply caughtb_caught in H. congruence.
  - apply updateItem_skipped; exact Hact.
Qed.

Lemma updateItem_engine speed g w item :
  fst (fst (updateItem speed g w item))
  = if hits (basketPosition g) speed item
    then if is_bomb item then set_isGameActive g false
         else set_score g (score g + points item)
    else g.
Proof.
  rewrite updateItem_pass.
  destruct (hits (basketPosition g) speed item); [|reflexivity].
  rewrite handleCollision_engine. reflexivity.
Qed.

Lemma updateItem_kept speed g w item :
  filter Item.active [snd (updateItem speed g w item)]
  = map (moved speed) (filter (survives (basketPosition g) speed) [item]).
Proof.
  rewrite updateItem_pass. unfold hits, survives. cbn [filter].
  destruct (Item.active item) eqn:Hact; cbn [andb negb].
  - destruct (caughtb (basketPosition g) speed item); cbn [andb negb].
    + rewrite handleCollision_item. reflexivity.
    + cbn [snd]. rewrite Z.leb_antisym.
      destruct (650 <? Item.y item + speed); cbn; [reflexivity|].
      unfold moved. destruct item; cbn in *. subst. reflexivity.
  - cbn. rewrite Hact. reflexivity.
Qed.

Lemma total_points_nonneg l : 0 <= total_points l /\ (100 | total_points l).
Proof.
  induction l as [|a l [IH1 IH2]].
  - cbn. split; [lia|apply Z.divide_0_r].
  - change (total_points (a :: l)) with (points a + total_points l).
    assert (H : 0 <= points a /\ (100 | points a)).
    { unfold points. destruct (Item.type a); split; try lia.
      - exists 1; lia.
      - exists 2; lia.
      - apply Z.divide_0_r. }
    split; [lia|]. apply Z.divide_add_r; tauto.
Qed.

(** The items that come out of the loop and are kept by the purge. *)
Lemma loop_kept speed l : forall g w,
  filter Item.active (snd (updateItems_loop speed g w l))
  = map (moved speed) (filter (survives (basketPosition g) speed) l).
Proof.
  induction l as [|a rest IH]; intros g w.
  - reflexivity.
  - rewrite updateItems_loop_cons. cbv zeta. cbn [snd].
    change (?x :: ?r) with ([x] ++ r).
    rewrite !filter_app, map_app, IH, updateItem_kept.
    destruct (updateItem_settings speed g w a) as (_ & _ & Hb & _).
    rewrite Hb. reflexivity.
Qed.

(** The score after the loop. *)
Lemma loop_score speed l : forall g w,
  score (fst (fst (updateItems_loop speed g w l)))
  = score g + total_points (filter (hits (basketPosition g) speed) l).
Proof.
  induction l as [|a rest IH]; intros g w.
  - cbn. lia.
  - rewrite updateItems_loop_cons. cbv zeta. cbn [fst filter].
    rewrite IH.
    destruct (updateItem_settings speed g w a) as (_ & _ & Hb & _).
    rewrite Hb, updateItem_engine.
    set (rest' := filter (hits (basketPosition g) speed) rest).
    destruct (hits (basketPosition g) speed a).
    + change (total_points (a :: rest')) with (points a + total_points rest').
      unfold is_bomb, points.
      destruct (Item.type a); cbn [score set_score set_isGameActive]; lia.
    + reflexivity.
Qed.

(** The active flag after the loop: cleared by a bomb that is hit, and
    by nothing else. *)
Lemma loop_active speed l : forall g w,
  isGameActive (fst (fst (updateItems_loop speed g w l)))
  = isGameActive g
    && forallb (fun item => negb (hits (basketPosition g) speed item && is_bomb item)) l.
Proof.
  induction l as [|a rest IH]; intros g w.
  - cbn. rewrite andb_true_r. reflexivity.
  - rewrite updateItems_loop_cons. cbv zeta. cbn [fst forallb].
    rewrite IH.
    destruct (updateItem_settings speed g w a) as (_ & _ & Hb & _).
    rewrite Hb, updateItem_engine.
    destruct (hits (basketPosition g) speed a); cbn [andb negb].
    + destruct (is_bomb a); cbn [isGameActive set_isGameActive set_score negb andb].
      * rewrite andb_false_r. reflexivity.
      * reflexivity.
    + reflexivity.
Qed.

(** Without a registered callback the loop leaves the world alone. *)
Lemma loop_silent speed l : forall g w,
  onGameEnd g = None -> snd (fst (updateItems_loop speed g w l)) = w.
Proof.
  induction l as [|a rest IH]; intros g w Hnone.
  - reflexivity.
  - rewrite updateItems_loop_cons. cbv zeta. cbn [fst snd].
    destruct (updateItem_settings speed g w a) as (_ & _ & _ & _ & _ & _ & Hc).
    rewrite IH by congruence.
    rewrite updateItem_pass.
    destruct (hits (basketPosition g) speed a); [|reflexivity].
    rewrite handleCollision_world, Hnone. destruct (is_bomb _); reflexivity.
Qed.

Lemma updateItems_kept g w :
  items (fst (updateItems g w))
  = map (moved (3 + level g * 2))
        (filter (survives (basketPosition g) (3 + level g * 2)) (items g)).
Proof.
  unfold updateItems.
  pose proof (loop_kept (3 + level g * 2) (items g) g w) as H.
  destruct (updateItems_loop _ g w (items g)) as [[g1 w1] l1]. exact H.
Qed.

Lemma updateItems_points g w :
  score (fst (updateItems g w))
  = score g + total_points (filter (hits (basketPosition g) (3 + level g * 2))
                                   (items g)).
Proof.
  unfold updateItems.
  pose proof (loop_score (3 + level g * 2) (items g) g w) as H.
  destruct (updateItems_loop _ g w (items g)) as [[g1 w1] l1]. exact H.
Qed.

Lemma updateItems_active g w :
  isGameActive (fst (updateItems g w))
  = isGameActive g
    && forallb (fun item => negb (hits (basketPosition g) (3 + level g * 2) item
                                  && is_bomb item)) (items g).
Proof.
  unfold updateItems.
  pose proof (loop_active (3 + level g * 2) (items g) g w) as H.
  destruct (updateItems_loop _ g w (items g)) as [[g1 w1] l1]. exact H.
Qed.

Lemma updateItems_silent g w :
  onGameEnd g = None -> snd (updateItems g w) = w.
Proof.
  intros Hnone. unfold updateItems.
  pose proof (loop_silent (3 + level g * 2) (items g) g w Hnone) as H.
  destruct (updateItems_loop _ g w (items g)) as [[g1 w1] l1]. exact H.
Qed.

Lemma updateItems_fields g w :
  level (fst (updateItems g w)) = level g
  /\ timeLimit (fst (updateItems g w)) = timeLimit g
  /\ basketPosition (fst (updateItems g w)) = basketPosition g
  /\ spawnTimer (fst (updateItems g w)) = spawnTimer g
  /\ startTime (fst (updateItems g w)) = startTime g
  /\ onGameEnd (fst (updateItems g w)) = onGameEnd g.
Proof.
  unfold updateItems.
  pose proof (updateItems_loop_settings (3 + level g * 2) (items g) g w) as H.
  destruct (updateItems_loop _ g w (items g)) as [[g1 w1] l1].
  cbn in *. unfold same_settings in H. tauto.
Qed.

(** X1. The collection after [updateItems] is exactly this: the items
    that were active, are not caught and are not beyond 650 after the
    move, each moved down by 3 + 2 * level, in their previous order.
    Nothing is added, reordered or duplicated; every item left is active
    and at most at 650. *)
Theorem updateItems_collection g w :
  let speed := 3 + level g * 2 in
  items (fst (updateItems g w))
  = map (moved speed) (filter (survives (basketPosition g) speed) (items g))
  /\ (List.length (items (fst (updateItems g w))) <= List.length (items g))%nat
  /\ Forall (fun item => Item.active item = true /\ Item.y item <= 650)
            (items (fst (updateItems g w))).
Proof.
  cbv zeta. rewrite updateItems_kept. split; [reflexivity|]. split.
  - rewrite length_map. apply filter_length_le.
  - rewrite Forall_forall. intros b Hb.
    apply in_map_iff in Hb as (a & <- & Ha). apply filter_In in Ha as [_ Hs].
    unfold survives in Hs. rewrite !andb_true_iff, Z.leb_le in Hs.
    cbn. tauto.
Qed.

(** X2. The score after [updateItems] is the score before plus 100 for
    every apple and 200 for every grape that was active and caught in that
    pass; a bomb adds nothing.  The score therefore never goes down, and
    it changes by a multiple of 100. *)
Theorem updateItems_score g w :
  let gain := total_points (filter (hits (basketPosition g) (3 + level g * 2))
                                   (items g)) in
  score (fst (updateItems g w)) = score g + gain
  /\ 0 <= gain /\ (100 | gain).
Proof.
  cbv zeta. split; [apply updateItems_points|apply total_points_nonneg].
Qed.

(** X3. A pass of [updateItems] leaves the round active exactly when it
    was active and no active bomb was caught in the pass; and without a
    registered callback it leaves the world outside the engine alone. *)
Theorem updateItems_round_flag g w :
  let speed := 3 + level g * 2 in
  (isGameActive (fst (updateItems g w)) = true
   <-> isGameActive g = true
       /\ forall item, In item (items g) ->
                       hits (basketPosition g) speed item = true ->
                       Item.type item <> bomb)
  /\ (onGameEnd g = None -> snd (updateItems g w) = w).
Proof.
  cbv zeta. split; [|apply updateItems_silent].
  rewrite updateItems_active, andb_true_iff, forallb_forall.
  split; intros [Ha Hb]; (split; [exact Ha|]).
  - intros item Hin Hhit Hty. specialize (Hb item Hin).
    unfold is_bomb in Hb. rewrite Hhit, Hty in Hb. discriminate.
  - intros item Hin. specialize (Hb item Hin).
    destruct (hits _ _ item); [|reflexivity].
    unfold is_bomb. destruct (Item.type item); try reflexivity.
    exfalso. apply Hb; reflexivity.
Qed.

End Pass.

(** * One tick of [update], exactly *)

Section Ticks.

Context {W : Type}.
Implicit Types (g : GameEngine W) (w : W) (item : Item.t) (l : list Item.t).

(** The test [remaining <= 0] of [update]. *)
Lemma timeout_iff (t : Z) (e : Q) :
  Qle_bool (inject_Z t - e) 0 = true <-> (inject_Z t <= e)%Q.
Proof.
  rewrite Qle_bool_iff. destruct e as [n d].
  unfold Qle, Qminus, Qplus, Qopp, inject_Z. cbn [Qnum Qden]. lia.
Qed.

Lemma timeout_test g now t0 :
  startTime g = Some t0 ->
  num_le (option_map (fun e => inject_Z (timeLimit g) - e)%Q (elapsedSeconds g now)) 0
  = true
  <-> (inject_Z (timeLimit g) <= Qmake (now - t0) 1000)%Q.
Proof.
  intros H. unfold elapsedSeconds. rewrite H. cbn [option_map num_le].
  apply timeout_iff.
Qed.

(** A tick of an active round that does not time out: what [update] has
    done when it calls [updateItems]. *)
Lemma update_running g w now r_lane typeRoll :
  isGameActive g = true ->
  num_le (option_map (fun e => inject_Z (timeLimit g) - e)%Q (elapsedSeconds g now)) 0
  = false ->
  let lv := levelAt (elapsedSeconds g now) in
  exists g2,
    update g w now r_lane typeRoll = updateItems g2 w
    /\ level g2 = lv /\ score g2 = score g /\ timeLimit g2 = timeLimit g
    /\ isGameActive g2 = true /\ basketPosition g2 = basketPosition g
    /\ startTime g2 = startTime g /\ onGameEnd g2 = onGameEnd g
    /\ ((Z.max 20 (60 - lv * 10) < spawnTimer g + 1 /\ spawnTimer g2 = 0
         /\ exists new,
             items g2 = items g ++ [new]
             /\ Item.y new = -50 /\ Item.active new = true
             /\ Item.lane new = Qfloor (double_round (r_lane * 3))
             /\ Item.x new = lanes_at (Qfloor (double_round (r_lane * 3))))
        \/ (spawnTimer g + 1 <= Z.max 20 (60 - lv * 10)
            /\ spawnTimer g2 = spawnTimer g + 1 /\ items g2 = items g)).
Proof.
  intros Hact Hrun lv. unfold update. rewrite Hact. cbn [negb].
  rewrite Hrun. fold lv.
  set (g1 := set_spawnTimer (set_level g lv) (spawnTimer (set_level g lv) + 1)).
  change (level g1) with lv. change (spawnTimer g1) with (spawnTimer g + 1).
  destruct (Z.ltb_spec (Z.max 20 (60 - lv * 10)) (spawnTimer g + 1)) as [Hsp|Hsp].
  - eexists. split; [reflexivity|].
    repeat (split; [reflexivity || exact Hact|]).
    left. split; [exact Hsp|]. split; [reflexivity|].
    eexists. split; [reflexivity|]. repeat split.
  - exists g1. split; [reflexivity|].
    repeat (split; [reflexivity || exact Hact|]).
    right. split; [exact Hsp|]. split; reflexivity.
Qed.

(** A tick that times out is [stop()] after the level has been set. *)
Lemma update_timed_out g w now r_lane typeRoll :
  isGameActive g = true ->
  num_le (option_map (fun e => inject_Z (timeLimit g) - e)%Q (elapsedSeconds g now)) 0
  = true ->
  update g w now r_lane typeRoll
  = stop (set_level g (levelAt (elapsedSeconds g now))) w.
Proof.
  intros Hact Hout. unfold update. rewrite Hact. cbn [negb]. rewrite Hout.
  reflexivity.
Qed.

(** A newly spawned item is far above the band after its first move. *)
Lemma new_item_survives basket speed item :
  Item.y item = -50 -> Item.active item = true -> 5 <= speed <= 9 ->
  survives basket speed item = true /\ hits basket speed item = false.
Proof.
  intros Hy Ha Hs. unfold survives, hits, caughtb. rewrite Hy, Ha. cbn [andb].
  replace (500 <? -50 + speed) with false by (symmetry; apply Z.ltb_ge; lia).
  cbn [andb negb]. split; [apply Z.leb_le; lia|reflexivity].
Qed.

(** X4. A tick of an active round ends the round in exactly two cases:
    the elapsed time has reached the time limit, or an active bomb of the
    collection is caught at the speed of the level just set.  A new item
    spawned in the tick never ends it. *)
Theorem update_ends_iff g w (now : Z) (r_lane typeRoll : Q) (t0 : Z) :
  isGameActive g = true ->
  startTime g = Some t0 ->
  let e := Qmake (now - t0) 1000 in
  let speed := 3 + levelAt (Some e) * 2 in
  isGameActive (fst (update g w now r_lane typeRoll)) = false
  <-> (inject_Z (timeLimit g) <= e)%Q
      \/ exists item, In item (items g)
                      /\ hits (basketPosition g) speed item = true
                      /\ Item.type item = bomb.
Proof.
  intros Hact Ht0 e speed.
  pose proof (timeout_test g now t0 Ht0) as Htest. fold e in Htest.
  assert (He : elapsedSeconds g now = Some e)
    by (unfold elapsedSeconds; rewrite Ht0; reflexivity).
  pose proof (levelAt_range (Some e)) as Hlv.
  destruct (num_le _ 0) eqn:Hout.
  - rewrite (update_timed_out g w now r_lane typeRoll Hact Hout).
    unfold stop. cbn. split; [intros _; left; apply Htest; reflexivity|].
    intros _. destruct (onGameEnd g); reflexivity.
  - destruct (update_running g w now r_lane typeRoll Hact Hout)
      as (g2 & -> & Hl & _ & _ & Ha2 & Hb2 & _ & _ & Hitems).
    rewrite He in Hl.
    rewrite updateItems_active, Ha2, Hl, Hb2. cbn [andb]. fold speed.
    assert (Hnew : forall new, Item.y new = -50 -> Item.active new = true ->
                               hits (basketPosition g) speed new = false).
    { intros new Hy Ha. apply new_item_survives; auto. subst speed. lia. }
    assert (Hsame : forallb (fun item => negb (hits (basketPosition g) speed item
                                               && is_bomb item)) (items g2)
                    = forallb (fun item => negb (hits (basketPosition g) speed item
                                                 && is_bomb item)) (items g)).
    { destruct Hitems as [(_ & _ & new & -> & Hy & Ha & _)|(_ & _ & ->)];
        [|reflexivity].
      rewrite forallb_app. cbn [forallb]. rewrite (Hnew new Hy Ha).
      cbn. rewrite andb_true_r. reflexivity. }
    rewrite Hsame. split.
    + intros Hf. right.
      destruct (forallb _ (items g)) eqn:Hall; [discriminate|].
      assert (Hex : existsb (fun item => hits (basketPosition g) speed item
                                         && is_bomb item) (items g) = true).
      { clear -Hall. induction (items g) as [|a l IH]; [discriminate|].
        cbn in *. destruct (hits _ _ a && is_bomb a); [reflexivity|].
        cbn in *. apply IH; exact Hall. }
      apply existsb_exists in Hex as (item & Hin & Hhb).
      apply andb_true_iff in Hhb as [Hh Hbm].
      exists item. split; [exact Hin|]. split; [exact Hh|].
      unfold is_bomb in Hbm. destruct (Item.type item); congruence.
    + intros [Hto|(item & Hin & Hh & Hty)].
      * apply Htest in Hto. congruence.
      * apply not_true_is_false. intros Hall.
        rewrite forallb_forall in Hall. specialize (Hall item Hin).
        unfold is_bomb in Hall. rewrite Hh, Hty in Hall. discriminate.
Qed.

(** X5. A tick of an active round whose elapsed time has reached the limit
    does nothing but end the round: the level is set from the elapsed
    time, the round becomes inactive and the callback, when registered,
    is applied once to the unchanged score and that level.  Items are not
    moved, nothing is spawned and the spawn timer is not advanced.  With a
    limit of 40 seconds or more the level reported is always 3. *)
Theorem update_timeout g w (now : Z) (r_lane typeRoll : Q) (t0 : Z) :
  isGameActive g = true ->
  startTime g = Some t0 ->
  let e := Qmake (now - t0) 1000 in
  (inject_Z (timeLimit g) <= e)%Q ->
  update g w now r_lane typeRoll
  = (set_isGameActive (set_level g (levelAt (Some e))) false,
     match onGameEnd g with
     | Some cb => cb (score g) (levelAt (Some e)) w
     | None => w
     end)
  /\ (40 <= timeLimit g -> levelAt (Some e) = 3).
Proof.
  intros Hact Ht0 e Hto.
  assert (He : elapsedSeconds g now = Some e)
    by (unfold elapsedSeconds; rewrite Ht0; reflexivity).
  split.
  - rewrite update_timed_out; [|exact Hact|apply (timeout_test g now t0 Ht0); exact Hto].
    rewrite He. unfold stop. cbn. destruct (onGameEnd g); reflexivity.
  - intros H40. apply levelAt_thresholds.
    apply Qle_trans with (y := inject_Z (timeLimit g)); [|exact Hto].
    unfold Qle, inject_Z. cbn [Qnum Qden]. lia.
Qed.

Lemma update_untouched g w (now : Z) (r_lane typeRoll : Q) :
  timeLimit (fst (update g w now r_lane typeRoll)) = timeLimit g
  /\ startTime (fst (update g w now r_lane typeRoll)) = startTime g
  /\ basketPosition (fst (update g w now r_lane typeRoll)) = basketPosition g
  /\ onGameEnd (fst (update g w now r_lane typeRoll)) = onGameEnd g.
Proof.
  destruct (isGameActive g) eqn:Hact.
  - destruct (num_le (option_map (fun e => inject_Z (timeLimit g) - e)%Q
                                 (elapsedSeconds g now)) 0) eqn:Hout.
    + rewrite (update_timed_out g w now r_lane typeRoll Hact Hout).
      unfold stop. cbn. destruct (onGameEnd g) eqn:E; cbn; auto.
    + destruct (update_running g w now r_lane typeRoll Hact Hout)
        as (g2 & -> & _ & _ & Ht & _ & Hb & Hs & Hc & _).
      destruct (updateItems_fields g2 w) as (_ & Ht' & Hb' & _ & Hs' & Hc').
      repeat split; congruence.
  - unfold update. rewrite Hact. cbn. auto.
Qed.

(** X6. [update()] never touches the time limit, the start time, the
    basket lane or the registered callback, whatever the state: active or
    not, timed out or not, with or without a spawn or a collision. *)
Theorem update_frame g w (now : Z) (r_lane typeRoll : Q) :
  let g' := fst (update g w now r_lane typeRoll) in
  timeLimit g' = timeLimit g /\ startTime g' = startTime g
  /\ basketPosition g' = basketPosition g /\ onGameEnd g' = onGameEnd g.
Proof.
  cbv zeta. apply update_untouched.
Qed.

(** X7. Within [update()] the score never goes down, and it changes by a
    multiple of 100. *)
Theorem update_score g w (now : Z) (r_lane typeRoll : Q) :
  let g' := fst (update g w now r_lane typeRoll) in
  score g <= score g' /\ (100 | score g' - score g).
Proof.
  cbv zeta. destruct (isGameActive g) eqn:Hact.
  - destruct (num_le (option_map (fun e => inject_Z (timeLimit g) - e)%Q
                                 (elapsedSeconds g now)) 0) eqn:Hout.
    + rewrite (update_timed_out g w now r_lane typeRoll Hact Hout).
      unfold stop. cbn. destruct (onGameEnd g); cbn;
        (split; [lia|rewrite Z.sub_diag; apply Z.divide_0_r]).
    + destruct (update_running g w now r_lane typeRoll Hact Hout)
        as (g2 & -> & _ & Hsc & _).
      rewrite updateItems_points, Hsc.
      destruct (total_points_nonneg
                  (filter (hits (basketPosition g2) (3 + level g2 * 2)) (items g2)))
        as [H1 H2].
      split; [lia|].
      replace (score g + _ - score g) with
        (total_points (filter (hits (basketPosition g2) (3 + level g2 * 2)) (items g2)))
        by lia.
      exact H2.
  - unfold update. rewrite Hact. cbn.
    split; [lia|rewrite Z.sub_diag; apply Z.divide_0_r].
Qed.

(** X8. Spawning in a tick of an active round that does not time out.
    The spawn timer is advanced by one; when it then exceeds
    max(20, 60 - 10 * level) it is reset to 0 and one new item is put at
    the end of the collection, in the lane [Math.floor] of the double
    product of the lane draw and 3, which the same tick moves from -50
    down by the speed; otherwise nothing is added.  The older items are the
    survivors of the pass, moved, in their order. *)
Theorem update_spawn g w (now : Z) (r_lane typeRoll : Q) (t0 : Z) :
  isGameActive g = true ->
  startTime g = Some t0 ->
  let e := Qmake (now - t0) 1000 in
  (e < inject_Z (timeLimit g))%Q ->
  let lv := levelAt (Some e) in
  let speed := 3 + lv * 2 in
  let g' := fst (update g w now r_lane typeRoll) in
  let older := map (moved speed)
                   (filter (survives (basketPosition g) speed) (items g)) in
  (Z.max 20 (60 - lv * 10) < spawnTimer g + 1 ->
     spawnTimer g' = 0
     /\ exists new, items g' = older ++ [new]
                    /\ Item.y new = -50 + speed /\ Item.active new = true
                    /\ Item.lane new = Qfloor (double_round (r_lane * 3)))
  /\ (spawnTimer g + 1 <= Z.max 20 (60 - lv * 10) ->
        spawnTimer g' = spawnTimer g + 1 /\ items g' = older).
Proof.
  intros Hact Ht0 e Hrun lv speed g' older.
  assert (He : elapsedSeconds g now = Some e)
    by (unfold elapsedSeconds; rewrite Ht0; reflexivity).
  assert (Hout : num_le (option_map (fun e => inject_Z (timeLimit g) - e)%Q
                                    (elapsedSeconds g now)) 0 = false).
  { apply not_true_is_false. intros H.
    apply (timeout_test g now t0 Ht0) in H. exact (Qlt_not_le _ _ Hrun H). }
  pose proof (levelAt_range (Some e)) as Hlv. fold lv in Hlv.
  destruct (update_running g w now r_lane typeRoll Hact Hout)
    as (g2 & Hupd & Hl & _ & _ & _ & Hb & _ & _ & Hitems).
  rewrite He in Hl, Hitems. fold lv in Hl, Hitems.
  subst g'. rewrite Hupd.
  destruct (updateItems_fields g2 w) as (_ & _ & _ & Hsp & _).
  rewrite Hsp, updateItems_kept, Hl, Hb. fold speed.
  destruct Hitems as [(Hgt & Hz & new & Hi & Hy & Ha & Hlane & _)|(Hle & Hs & Hi)].
  - split; [|intros; lia]. intros _. split; [exact Hz|].
    exists (moved speed new). rewrite Hi, filter_app, map_app.
    cbn [filter].
    destruct (new_item_survives (basketPosition g) speed new Hy Ha) as [Hsv _];
      [subst speed; lia|].
    rewrite Hsv. cbn [map]. split; [reflexivity|].
    unfold moved. cbn. rewrite Hy. repeat split; assumption.
  - split; [intros; lia|]. intros _. rewrite Hi. split; [exact Hs|reflexivity].
Qed.

End Ticks.

(** * Items fall through the catch band *)

Section Falling.

Context {W : Type}.
Implicit Types (g : GameEngine W) (w : W) (item : Item.t) (l : list Item.t).




(** A tick that does not run leaves the items where they are: [update()]
    has returned before [updateItems]. *)
Lemma idle_tick_items g w (t : Tick) :
  runs g t = false -> items (fst (tick (g, w) t)) = items g.
Proof.
  destruct t as [[now r_lane] typeRoll]. unfold runs. intros Hruns.
  cbn [tick fst snd].
  destruct (isGameActive g) eqn:Hact.
  - cbn [andb] in Hruns. apply negb_false_iff in Hruns.
    rewrite (update_timed_out g w now r_lane typeRoll Hact Hruns).
    unfold stop. cbn. destruct (onGameEnd g); reflexivity.
  - unfold update. rewrite Hact. reflexivity.
Qed.





End Falling.

(** * What holds after any calls on a new engine *)

Section Reach.

Context {W : Type}.
Implicit Types (g : GameEngine W) (w : W) (item : Item.t) (l : list Item.t).

Lemma calls_invariant (P : GameEngine W -> Prop) :
  (forall g w c, P g -> P (fst (call (g, w) c))) ->
  forall cs g w, P g -> P (fst (calls (g, w) cs)).
Proof.
  intros Hstep cs. induction cs as [|c cs IH]; intros g w Hg; cbn [calls fold_left].
  - exact Hg.
  - pose proof (Hstep g w c Hg) as H.
    destruct (call (g, w) c) as [g' w']. apply IH. exact H.
Qed.

Lemma stop_sane g w : sane g -> sane (fst (stop g w)).
Proof.
  intros (Hb & Hl & Hs & Hd & Ht & _ & Hi). unfold stop. cbn.
  destruct (onGameEnd g); cbn; repeat split; auto; try tauto; discriminate.
Qed.

Lemma update_sane g w now r_lane typeRoll :
  sane g -> sane (fst (update g w now r_lane typeRoll)).
Proof.
  intros Hsane. destruct (isGameActive g) eqn:Hact.
  2:{ unfold update. rewrite Hact. exact Hsane. }
  pose proof (levelAt_range (elapsedSeconds g now)) as Hlv.
  destruct (num_le (option_map (fun e => inject_Z (timeLimit g) - e)%Q
                               (elapsedSeconds g now)) 0) eqn:Hout.
  - rewrite (update_timed_out g w now r_lane typeRoll Hact Hout).
    apply stop_sane.
    destruct Hsane as (Hb & _ & Hs & Hd & Ht & Hst & Hi).
    repeat split; auto; tauto.
  - destruct (update_running g w now r_lane typeRoll Hact Hout)
      as (g2 & -> & Hl & Hsc & _ & _ & Hb2 & Hst2 & _ & Hitems).
    cbv zeta in Hl, Hitems.
    destruct Hsane as (Hb & _ & Hs & Hd & Ht & Hst & Hi).
    destruct (updateItems_fields g2 w) as (Hl' & _ & Hb' & Hsp' & Hst' & _).
    pose proof (total_points_nonneg
                  (filter (hits (basketPosition g2) (3 + level g2 * 2)) (items g2)))
      as [Hp1 Hp2].
    assert (Hi2 : Forall (fun item => Item.active item = true
                                      /\ -50 <= Item.y item <= 650) (items g2)).
    { assert (Hold : Forall (fun item => Item.active item = true
                                         /\ -50 <= Item.y item <= 650) (items g)).
      { eapply Forall_impl; [|exact Hi]. cbv beta. intros a [? ?]. split; [auto|lia]. }
      destruct Hitems as [(_ & _ & new & -> & Hy & Ha & _)|(_ & _ & ->)]; [|exact Hold].
      apply Forall_app. split; [exact Hold|].
      constructor; [|constructor]. split; [exact Ha|lia]. }
    unfold sane. rewrite Hl', Hb', Hsp', Hst', updateItems_points, updateItems_kept.
    rewrite Hb2, Hl, Hsc, Hst2. rewrite Hb2, Hl in Hp1, Hp2.
    split; [exact Hb|]. split; [exact Hlv|]. split; [lia|].
    split; [apply Z.divide_add_r; [exact Hd|exact Hp2]|].
    split.
    { destruct Hitems as [(_ & -> & _)|(Hle & -> & _)]; lia. }
    split; [intros _; apply Hst; exact Hact|].
    rewrite Forall_forall. intros b Hb0.
    apply in_map_iff in Hb0 as (a & <- & Ha). apply filter_In in Ha as [Hin Hsv].
    rewrite Forall_forall in Hi2. destruct (Hi2 a Hin) as [Haa Hya].
    unfold survives in Hsv. rewrite !andb_true_iff, Z.leb_le in Hsv.
    unfold moved. cbn [Item.y Item.set_y Item.active]. split; [exact Haa|lia].
Qed.

Lemma call_sane g w (c : Call W) : sane g -> sane (fst (call (g, w) c)).
Proof.
  intros Hsane. destruct c as [config now| |cb|p|now r_lane typeRoll]; cbn [call fst].
  - unfold sane, start. cbn.
    repeat split; try lia; try discriminate; try constructor.
    apply Z.divide_0_r.
  - apply stop_sane; exact Hsane.
  - exact Hsane.
  - destruct Hsane as (Hb & Hrest).
    destruct (onPoseDetected_round g p) as (Hi & Ht & _ & Ha & Hs & Hl).
    assert (Hbp : 0 <= basketPosition (onPoseDetected g p) <= 2).
    { unfold onPoseDetected.
      destruct (negb (isGameActive g)); [exact Hb|].
      destruct (String.eqb p pose_left); [cbn; lia|].
      destruct (String.eqb p pose_center); [cbn; lia|].
      destruct (String.eqb p pose_right); [cbn; lia|exact Hb]. }
    assert (Hst : startTime (onPoseDetected g p) = startTime g).
    { unfold onPoseDetected.
      destruct (negb (isGameActive g)); [reflexivity|].
      destruct (String.eqb p pose_left); [reflexivity|].
      destruct (String.eqb p pose_center); [reflexivity|].
      destruct (String.eqb p pose_right); reflexivity. }
    unfold sane. rewrite Hi, Ht, Ha, Hs, Hl, Hst. split; [exact Hbp|exact Hrest].
  - apply update_sane; exact Hsane.
Qed.

Lemma constructor_sane : sane (constructor (W := W)).
Proof.
  unfold sane, constructor. cbn.
  repeat split; try lia; try discriminate; try constructor.
  apply Z.divide_0_r.
Qed.

(** [update()] keeps the items separated, with or without a callback. *)
Lemma update_spacing g w now r_lane typeRoll :
  well_spaced g -> well_spaced (fst (update g w now r_lane typeRoll)).
Proof.
  intros Hws. destruct (isGameActive g) eqn:Hact.
  2:{ unfold update. rewrite Hact. exact Hws. }
  pose proof (levelAt_range (elapsedSeconds g now)) as Hlv.
  destruct (num_le (option_map (fun e => inject_Z (timeLimit g) - e)%Q
                               (elapsedSeconds g now)) 0) eqn:Hout.
  - rewrite (update_timed_out g w now r_lane typeRoll Hact Hout).
    unfold stop. cbn. destruct (onGameEnd g); exact Hws.
  - destruct (update_running g w now r_lane typeRoll Hact Hout)
      as (g2 & -> & Hl & _ & _ & _ & _ & _ & _ & Hitems).
    cbv zeta in Hl, Hitems.
    assert (Hs2 : spaced (-50 + 5 * spawnTimer g2) (items g2)).
    { destruct Hitems as [(Hgt & -> & new & -> & Hy & Ha & _)|(_ & -> & ->)].
      - apply (spaced_push (-50 + 5 * (spawnTimer g + 1))); auto. lia.
      - exact Hws. }
    destruct (updateItems_fields g2 w) as (_ & _ & _ & Hsp & _).
    unfold well_spaced. rewrite Hsp.
    replace (-50 + 5 * (spawnTimer g2 + 1)) with (-50 + 5 * spawnTimer g2 + 5) by lia.
    apply updateItems_spaced; [lia|exact Hs2].
Qed.

Lemma call_spacing g w (c : Call W) :
  well_spaced g -> well_spaced (fst (call (g, w) c)).
Proof.
  intros Hws. destruct c as [config now| |cb|p|now r_lane typeRoll]; cbn [call fst].
  - apply start_well_spaced.
  - unfold stop. cbn. destruct (onGameEnd g); exact Hws.
  - exact Hws.
  - destruct (onPoseDetected_round g p) as (Hi & Ht & _).
    unfold well_spaced. rewrite Hi, Ht. exact Hws.
  - apply update_spacing; exact Hws.
Qed.

(** Separated items between -45 and 650: the first one is far down. *)
Lemma sorted_depth l :
  StronglySorted ahead l ->
  Forall (fun item => -45 <= Item.y item <= 650) l ->
  match l with
  | [] => True
  | a :: _ => -45 + 60 * (Z.of_nat (List.length l) - 1) <= Item.y a
  end.
Proof.
  induction l as [|a l IH]; intros Hs Hb; [exact I|].
  apply StronglySorted_inv in Hs as [Hs Ha].
  inversion Hb as [|? ? Hya Hbl]; subst.
  specialize (IH Hs Hbl).
  destruct l as [|b l]; [cbn; lia|].
  inversion Ha as [|? ? Hab _]; subst. unfold ahead in Hab.
  cbn [List.length] in *. lia.
Qed.

Lemma lanes_at_centre (k : Z) : 0 <= k <= 2 -> lanes_at k = Some (100 + 200 * k).
Proof.
  intros H. assert (Hk : k = 0 \/ k = 1 \/ k = 2) by lia.
  destruct Hk as [->|[->| ->]]; reflexivity.
Qed.

(** X9. Ranges.  After any sequence of calls of [start], [stop],
    [setGameEndCallback], [onPoseDetected] and [update] on a new engine,
    with any arguments: the basket lane is 0, 1 or 2; the level is 1, 2
    or 3; the score is a non-negative multiple of 100; the spawn timer is
    between 0 and 50; an active round has a start time; and every item of
    the collection is active and between -45 and 650. *)
Theorem reached_sane w (cs : list (Call W)) : sane (reached w cs).
Proof.
  unfold reached. apply (calls_invariant sane).
  - intros g w0 c. apply call_sane.
  - apply constructor_sane.
Qed.

(** X10. After any such calls the items are in spawn order, each at
    least 60 further down than the next (more than the height of the catch
    band, so that at most one is in the band in a tick), and the collection
    holds at most 12 items. *)
Theorem reached_spaced w (cs : list (Call W)) :
  well_spaced (reached w cs)
  /\ (List.length (items (reached w cs)) <= 12)%nat.
Proof.
  assert (Hws : well_spaced (reached w cs)).
  { unfold reached. apply (calls_invariant well_spaced).
    - intros g w0 c. apply call_spacing.
    - repeat split; constructor. }
  split; [exact Hws|].
  assert (Hsane : sane (reached w cs)).
  { unfold reached. apply (calls_invariant sane).
    - intros g w0 c. apply call_sane.
    - apply constructor_sane. }
  destruct Hsane as (_ & _ & _ & _ & _ & _ & Hi).
  destruct Hws as (_ & Hs & _).
  assert (Hb : Forall (fun item => -45 <= Item.y item <= 650) (items (reached w cs))).
  { eapply Forall_impl; [|exact Hi]. cbv beta. tauto. }
  pose proof (sorted_depth _ Hs Hb) as Hd.
  destruct (items (reached w cs)) as [|a l]; [cbn; lia|].
  inversion Hb; subst. cbn [List.length] in *. lia.
Qed.

(** X11. When every lane draw of [Math.random()] is a double in [0,1),
    every item of the collection is in lane 0, 1 or 2 and its
    x-coordinate is the centre of its lane: 100, 300 or 500. *)
Theorem reached_lanes w (cs : list (Call W)) :
  unit_draws cs ->
  Forall (fun item => 0 <= Item.lane item <= 2
                      /\ Item.x item = Some (100 + 200 * Item.lane item))
         (items (reached w cs)).
Proof.
  set (P := Forall (fun item => 0 <= Item.lane item <= 2
                                /\ Item.x item = Some (100 + 200 * Item.lane item))).
  unfold reached.
  assert (Hgen : forall cs0 g w0, unit_draws cs0 -> P (items g) ->
                                  P (items (fst (calls (g, w0) cs0)))).
  { induction cs0 as [|c cs0 IH]; intros g w0 Hd Hg; cbn [calls fold_left].
    - exact Hg.
    - inversion Hd as [|? ? Hc Hd']; subst.
      assert (Hstep : P (items (fst (call (g, w0) c)))).
      { destruct c as [config now| |cb|p|now r_lane typeRoll]; cbn [call fst].
        - constructor.
        - unfold stop. cbn. destruct (onGameEnd g); exact Hg.
        - exact Hg.
        - destruct (onPoseDetected_round g p) as (Hi & _). rewrite Hi. exact Hg.
        - destruct (isGameActive g) eqn:Hact.
          2:{ unfold update. rewrite Hact. exact Hg. }
          destruct (num_le (option_map (fun e => inject_Z (timeLimit g) - e)%Q
                                       (elapsedSeconds g now)) 0) eqn:Hout.
          + rewrite (update_timed_out g w0 now r_lane typeRoll Hact Hout).
            unfold stop. cbn. destruct (onGameEnd g); exact Hg.
          + destruct (update_running g w0 now r_lane typeRoll Hact Hout)
              as (g2 & -> & _ & _ & _ & _ & _ & _ & _ & Hitems).
            rewrite updateItems_kept.
            assert (H2 : P (items g2)).
            { destruct Hitems as [(_ & _ & new & -> & _ & _ & Hl & Hx)|(_ & _ & ->)];
                [|exact Hg].
              apply Forall_app. split; [exact Hg|]. constructor; [|constructor].
              destruct Hc as (Hdb & H0 & H1).
              pose proof (proj1 (lane_of_draw r_lane Hdb H0 H1)) as Hr.
              cbv zeta in Hr.
              rewrite Hx, Hl. split; [exact Hr|apply lanes_at_centre; exact Hr]. }
            unfold P in *. rewrite Forall_forall in *. intros b Hb.
            apply in_map_iff in Hb as (a & <- & Ha). apply filter_In in Ha as [Hin _].
            exact (H2 a Hin). }
      destruct (call (g, w0) c) as [g' w']. apply IH; assumption. }
  intros Hd. apply Hgen; [exact Hd|constructor].
Qed.

(** X12. As long as no callback is registered the engine never touches
    the world outside it: whatever is called, rounds ending by stop, by
    timeout or by a bomb included, the world is as it was. *)
Theorem unregistered_silent w (cs : list (Call W)) :
  unregistered cs ->
  snd (calls (constructor, w) cs) = w /\ onGameEnd (reached w cs) = None.
Proof.
  unfold reached.
  assert (Hgen : forall cs0 g w0, unregistered cs0 -> onGameEnd g = None ->
                   snd (calls (g, w0) cs0) = w0
                   /\ onGameEnd (fst (calls (g, w0) cs0)) = None).
  { induction cs0 as [|c cs0 IH]; intros g w0 Hu Hg; cbn [calls fold_left].
    - split; [reflexivity|exact Hg].
    - inversion Hu as [|? ? Hc Hu']; subst.
      assert (Hstep : snd (call (g, w0) c) = w0
                      /\ onGameEnd (fst (call (g, w0) c)) = None).
      { destruct c as [config now| |cb|p|now r_lane typeRoll]; cbn [call fst snd].
        - split; [reflexivity|exact Hg].
        - unfold stop. cbn. rewrite Hg. split; [reflexivity|exact Hg].
        - destruct cb; [contradiction|]. split; reflexivity.
        - destruct (onPoseDetected_round g p) as (_ & _ & Hcb & _).
          rewrite Hcb. split; [reflexivity|exact Hg].
        - destruct (update_untouched g w0 now r_lane typeRoll) as (_ & _ & _ & Hcb).
          split; [|congruence].
          destruct (isGameActive g) eqn:Hact.
          2:{ unfold update. rewrite Hact. reflexivity. }
          destruct (num_le (option_map (fun e => inject_Z (timeLimit g) - e)%Q
                                       (elapsedSeconds g now)) 0) eqn:Hout.
          + rewrite (update_timed_out g w0 now r_lane typeRoll Hact Hout).
            unfold stop. cbn. rewrite Hg. reflexivity.
          + destruct (update_running g w0 now r_lane typeRoll Hact Hout)
              as (g2 & -> & _ & _ & _ & _ & _ & _ & Hc2 & _).
            apply updateItems_silent. congruence. }
      destruct (call (g, w0) c) as [g' w'] eqn:E. cbn [fst snd] in Hstep.
      destruct Hstep as [-> Hg']. apply IH; assumption. }
  intros Hu. apply Hgen; [exact Hu|reflexivity].
Qed.

End Reach.

(** * Gestures, the clock and the canvas *)

Section Page.

Context {W : Type}.
Implicit Types (g : GameEngine W) (w : W) (item : Item.t) (l : list Item.t).

Lemma step_idle g w (e : Event) :
  isGameActive g = false -> step (g, w) e = (g, w).
Proof.
  intros Hact. destruct e as [|c|now now' r_lane typeRoll]; cbn [step].
  - unfold main_stop. rewrite Hact. reflexivity.
  - unfold handlePrediction. destruct c; [|reflexivity]. rewrite Hact. reflexivity.
  - unfold drawPose. rewrite Hact. reflexivity.
Qed.

(** X13. Once the round is inactive the page cannot change the engine:
    [update()] and [onPoseDetected()] return at once, and no sequence of
    stop clicks, predictions and frames of main.js changes the engine or
    calls the callback.  Only [start()] leaves this state. *)
Theorem inactive_idle g w :
  isGameActive g = false ->
  (forall now r_lane typeRoll, update g w now r_lane typeRoll = (g, w))
  /\ (forall poseName, onPoseDetected g poseName = g)
  /\ (forall es : list Event, run (g, w) es = (g, w)).
Proof.
  intros Hact. split; [|split].
  - intros now r_lane typeRoll. unfold update. rewrite Hact. reflexivity.
  - intros p. unfold onPoseDetected. rewrite Hact. reflexivity.
  - intros es. induction es as [|e es IH]; cbn [run fold_left]; [reflexivity|].
    rewrite (step_idle g w e Hact). exact IH.
Qed.

(** X14. Pose labels.  A label that is not one of the three leaves the
    whole engine as it is, not only the basket; and of two labels in a
    row only the second counts when it is one of the three: the basket
    jumps, it does not depend on where it was. *)
Theorem onPoseDetected_last_wins g (p q : string) :
  (~ recognised p -> onPoseDetected g p = g)
  /\ (recognised q ->
      onPoseDetected (onPoseDetected g p) q = onPoseDetected g q).
Proof.
  split.
  - intros Hp. unfold onPoseDetected.
    destruct (negb (isGameActive g)); [reflexivity|].
    destruct (String.eqb_spec p pose_left) as [->|_];
      [exfalso; apply Hp; left; reflexivity|].
    destruct (String.eqb_spec p pose_center) as [->|_];
      [exfalso; apply Hp; right; left; reflexivity|].
    destruct (String.eqb_spec p pose_right) as [->|_];
      [exfalso; apply Hp; right; right; reflexivity|reflexivity].
  - intros Hq.
    destruct (isGameActive g) eqn:Hact.
    + destruct (onPoseDetected_round g p) as (_ & _ & _ & Ha & _).
      assert (Hset : forall k, set_basketPosition (onPoseDetected g p) k
                               = set_basketPosition g k).
      { intros k. unfold onPoseDetected. rewrite Hact. cbn [negb].
        destruct (String.eqb p pose_left); [reflexivity|].
        destruct (String.eqb p pose_center); [reflexivity|].
        destruct (String.eqb p pose_right); reflexivity. }
      assert (Hon : forall g', isGameActive g' = true ->
                 onPoseDetected g' pose_left = set_basketPosition g' 0
                 /\ onPoseDetected g' pose_center = set_basketPosition g' 1
                 /\ onPoseDetected g' pose_right = set_basketPosition g' 2).
      { intros g' H'. unfold onPoseDetected. rewrite H'. repeat split. }
      rewrite Hact in Ha.
      destruct (Hon g Hact) as (H1 & H2 & H3).
      destruct (Hon (onPoseDetected g p) Ha) as (H1' & H2' & H3').
      destruct Hq as [->|[->| ->]].
      * rewrite H1, H1'. apply Hset.
      * rewrite H2, H2'. apply Hset.
      * rewrite H3, H3'. apply Hset.
    + unfold onPoseDetected. rewrite Hact. cbn. rewrite Hact. reflexivity.
Qed.

Lemma levelAt_mono (e1 e2 : Q) :
  (e1 <= e2)%Q -> levelAt (Some e1) <= levelAt (Some e2).
Proof.
  intros Hle. unfold levelAt, num_lt.
  destruct (Qlt_bool e1 20) eqn:H1; [destruct (Qlt_bool e2 20), (Qlt_bool e2 40); lia|].
  apply Qlt_bool_false in H1.
  assert (H2 : Qlt_bool e2 20 = false).
  { apply Qlt_bool_false. eapply Qle_trans; eauto. }
  rewrite H2.
  destruct (Qlt_bool e1 40) eqn:H3; [destruct (Qlt_bool e2 40); lia|].
  apply Qlt_bool_false in H3.
  assert (H4 : Qlt_bool e2 40 = false).
  { apply Qlt_bool_false. eapply Qle_trans; eauto. }
  rewrite H4. lia.
Qed.

(** X15. Within a round the level never goes down: if a tick at clock
    reading [now1] leaves the round active, a later tick at [now2] sets
    a level that is at least the one held. *)
Theorem level_never_falls g w w' (now1 now2 : Z) (r_lane1 typeRoll1 r_lane2 typeRoll2 : Q) :
  isGameActive g = true ->
  let g1 := fst (update g w now1 r_lane1 typeRoll1) in
  isGameActive g1 = true ->
  now1 <= now2 ->
  level g1 <= level (fst (update g1 w' now2 r_lane2 typeRoll2)).
Proof.
  intros Hact g1 Hact1 Hnow.
  rewrite (tick_level_levelAt g1 w' now2 r_lane2 typeRoll2 Hact1).
  subst g1. rewrite (tick_level_levelAt g w now1 r_lane1 typeRoll1 Hact).
  destruct (update_untouched g w now1 r_lane1 typeRoll1) as (_ & Hst & _).
  unfold elapsedSeconds. rewrite Hst.
  destruct (startTime g) as [t0|]; [|lia].
  apply levelAt_mono. unfold Qle. cbn [Qnum Qden]. lia.
Qed.

(** X16. The countdown that [render] shows.  For a round with a start
    time the remaining time is a number, it is never negative, it never
    grows as the clock advances, from the start of the round on it is at
    most the limit, and it is 0 exactly when the elapsed time has reached
    the limit, which is when [update()] ends the round by timeout. *)
Theorem remainingTime_countdown g (now1 now2 t0 : Z) :
  startTime g = Some t0 ->
  now1 <= now2 ->
  exists r1 r2,
    remainingTime g now1 = Some r1 /\ remainingTime g now2 = Some r2
    /\ 0 <= r2 <= r1
    /\ (t0 <= now1 -> r1 <= Z.max 0 (timeLimit g))
    /\ (r2 = 0 <-> (inject_Z (timeLimit g) <= Qmake (now2 - t0) 1000)%Q).
Proof.
  intros Ht0 Hnow.
  rewrite !(remainingTime_value g _ t0 Ht0).
  eexists. eexists. split; [reflexivity|]. split; [reflexivity|].
  unfold Qfloor, Qle, inject_Z. cbn [Qnum Qden].
  repeat split; try intros; Z.div_mod_to_equations; lia.
Qed.

(** X17. After any calls on a new engine [render] draws the basket at a
    defined place: the centre of its lane, x = 100, 300 or 500, at
    y = 550. *)
Theorem render_basket w (cs : list (Call W)) (now : Z) :
  In (FillText BasketIcon (Some (100 + 200 * basketPosition (reached w cs))) 550)
     (render (reached w cs) now).
Proof.
  assert (Hsane : sane (reached w cs)).
  { unfold reached. apply (calls_invariant sane).
    - intros g w0 c. apply call_sane.
    - apply constructor_sane. }
  destruct Hsane as (Hb & _).
  unfold render. rewrite (lanes_at_centre _ Hb).
  apply in_or_app; right. apply in_or_app; left.
  cbn. do 3 right. left. reflexivity.
Qed.

(** X18. [render] draws exactly one icon per item of the collection, in
    the order of the collection, with the item's kind at the item's x and
    y; it issues 23 operations plus 2 per item. *)
Theorem render_items g (now : Z) :
  drawnItems (render g now)
  = map (fun item => (Item.type item, Item.x item, Item.y item)) (items g)
  /\ List.length (render g now) = (23 + 2 * List.length (items g))%nat.
Proof.
  unfold render, drawnItems. split.
  - rewrite !flat_map_app. cbn [flat_map app].
    rewrite app_nil_r.
    induction (items g) as [|a l IH]; [reflexivity|].
    cbn [flat_map map app]. rewrite IH. reflexivity.
  - rewrite !length_app. cbn [List.length].
    assert (H : forall l, List.length
                  (flat_map (fun item =>
                     [Font "60px sans-serif";
                      FillText (ItemIcon (Item.type item)) (Item.x item) (Item.y item)]) l)
                = (2 * List.length l)%nat).
    { induction l as [|a l IH]; [reflexivity|]. cbn [flat_map List.length app] in *. lia. }
    rewrite H. lia.
Qed.

End Page.

(** * The page of main.js reaches engine states only *)

Section PageReach.

Context {W : Type}.
Implicit Types (g : GameEngine W) (w : W).

Lemma calls_app (cs1 cs2 : list (Call W)) (gw : GameEngine W * W) :
  calls gw (cs1 ++ cs2) = calls (calls gw cs1) cs2.
Proof. unfold calls. apply fold_left_app. Qed.

(** Every event of the page is no call or one call of a method. *)
Lemma step_as_calls g w (e : Event) :
  exists cs : list (Call W), step (g, w) e = calls (g, w) cs.
Proof.
  destruct e as [|c|now now' r_lane typeRoll]; cbn [step].
  - unfold main_stop. destruct (isGameActive g).
    + exists [CallStop]. reflexivity.
    + exists []. reflexivity.
  - unfold handlePrediction. destruct c as [name|]; [|exists []; reflexivity].
    destruct (isGameActive g && negb (String.eqb name "")).
    + exists [CallOnPoseDetected name]. reflexivity.
    + exists []. reflexivity.
  - unfold drawPose. destruct (isGameActive g).
    + exists [CallUpdate now r_lane typeRoll]. cbn.
      destruct (update g w now r_lane typeRoll); reflexivity.
    + exists []. reflexivity.
Qed.

Lemma run_as_calls (es : list Event) : forall g w,
  exists cs : list (Call W), run (g, w) es = calls (g, w) cs.
Proof.
  induction es as [|e es IH]; intros g w; cbn [run fold_left].
  - exists []. reflexivity.
  - destruct (step_as_calls g w e) as (cs1 & H1). rewrite H1.
    destruct (calls (g, w) cs1) as [g1 w1] eqn:E.
    destruct (IH g1 w1) as (cs2 & H2).
    exists (cs1 ++ cs2). rewrite calls_app, E. exact H2.
Qed.

(** X19. The page of main.js keeps the engine in range.  After
    [startGameMode] on a new engine and any stop clicks, predictions and
    frames, the ranges of X9 hold, the items are separated as in X10 and
    there are at most 12 of them. *)
Theorem page_sane (cb : Callback W) (config : Config) (now : Z) w (es : list Event) :
  let g := fst (run (startGameMode constructor cb config now, w) es) in
  sane g /\ well_spaced g /\ (List.length (items g) <= 12)%nat.
Proof.
  cbv zeta.
  destruct (run_as_calls es (startGameMode constructor cb config now) w) as (cs & ->).
  set (g := fst (calls (startGameMode constructor cb config now, w) cs)).
  assert (Hsane : sane g).
  { subst g. apply (calls_invariant sane).
    - intros g0 w0 c. apply call_sane.
    - apply (call_sane _ w (CallStart (Some config) now)).
      apply (call_sane _ w (CallSetGameEndCallback (Some cb))).
      apply constructor_sane. }
  assert (Hws : well_spaced g).
  { subst g. apply (calls_invariant well_spaced).
    - intros g0 w0 c. apply call_spacing.
    - apply start_well_spaced. }
  split; [exact Hsane|]. split; [exact Hws|].
  destruct Hsane as (_ & _ & _ & _ & _ & _ & Hi).
  destruct Hws as (_ & Hs & _).
  assert (Hb : Forall (fun item => -45 <= Item.y item <= 650) (items g)).
  { eapply Forall_impl; [|exact Hi]. cbv beta. tauto. }
  pose proof (sorted_depth _ Hs Hb) as Hd.
  destruct (items g) as [|a l]; [cbn; lia|].
  inversion Hb; subst. cbn [List.length] in *. lia.
Qed.

End PageReach.

(** * Calls of the callback in one pass *)

Lemma loop_recorded speed l : forall (g : GameEngine Calls) (calls0 : Calls),
  onGameEnd g = Some recorder ->
  exists scores,
    snd (fst (updateItems_loop speed g calls0 l))
    = calls0 ++ map (fun s => (s, level g)) scores
    /\ List.length scores
       = List.length (filter (fun item => hits (basketPosition g) speed item
                                          && is_bomb item) l)
    /\ Forall (fun s => score g <= s) scores.
Proof.
  induction l as [|a rest IH]; intros g calls0 Hcb.
  - exists []. cbn. rewrite app_nil_r. repeat split. constructor.
  - rewrite updateItems_loop_cons. cbv zeta. cbn [fst snd filter].
    destruct (updateItem_settings speed g calls0 a) as (Hl & _ & Hb & _ & _ & _ & Hc).
    destruct (IH (fst (fst (updateItem speed g calls0 a)))
                 (snd (fst (updateItem speed g calls0 a)))) as (scores & H1 & H2 & H3);
      [congruence|].
    rewrite Hl in H1. rewrite Hb in H2. rewrite H1. clear H1.
    assert (Hmono : score g <= score (fst (fst (updateItem speed g calls0 a)))).
    { rewrite updateItem_engine.
      destruct (hits (basketPosition g) speed a); [|lia].
      unfold is_bomb, points. destruct (Item.type a); cbn; lia. }
    assert (H3' : Forall (fun s => score g <= s) scores).
    { eapply Forall_impl; [|exact H3]. cbv beta. intros; lia. }
    rewrite updateItem_pass.
    destruct (hits (basketPosition g) speed a); cbn [andb].
    + rewrite handleCollision_world, Hcb.
      change (is_bomb (moved speed a)) with (is_bomb a).
      destruct (is_bomb a).
      * exists (score g :: scores). unfold recorder. rewrite <- app_assoc.
        cbn [map app List.length filter]. rewrite H2.
        split; [reflexivity|]. split; [reflexivity|].
        constructor; [lia|exact H3'].
      * exists scores. split; [reflexivity|]. split; [exact H2|exact H3'].
    + exists scores. split; [reflexivity|]. split; [exact H2|exact H3'].
Qed.

(** X20. With the recording callback registered, one pass of
    [updateItems] calls it once for every active bomb caught in the pass,
    in order, each time with the level of the tick and the score reached
    so far in the pass, which is at least the score before the pass; the
    calls that were recorded before stay as they are. *)
Theorem updateItems_calls (g : GameEngine Calls) (calls0 : Calls) :
  onGameEnd g = Some recorder ->
  exists scores,
    snd (updateItems g calls0) = calls0 ++ map (fun s => (s, level g)) scores
    /\ List.length scores
       = List.length (filter (fun item => hits (basketPosition g) (3 + level g * 2) item
                                          && is_bomb item) (items g))
    /\ Forall (fun s => score g <= s) scores.
Proof.
  intros Hcb. unfold updateItems.
  destruct (loop_recorded (3 + level g * 2) (items g) g calls0 Hcb) as (scores & H).
  destruct (updateItems_loop _ g calls0 (items g)) as [[g1 w1] l1].
  exists scores. exact H.
Qed.

(** * The further theorems at concrete inputs *)

(** [updateItems_round_flag]: a bomb caught with no callback registered. *)
Lemma updateItems_round_flag_witness :
  let g := setGameEndCallback (holding [Item.mk (Some 300) 510 1 bomb true]) None in
  onGameEnd g = None /\ snd (updateItems g [(7, 1)]) = [(7, 1)].
Proof.
  cbv zeta. split; [reflexivity|].
  apply (proj2 (updateItems_round_flag
                  (setGameEndCallback (holding [Item.mk (Some 300) 510 1 bomb true]) None)
                  [(7, 1)])).
  reflexivity.
Defined.

(** [update_ends_iff]: a bomb at 510 in the basket's lane ends the round. *)
Lemma update_ends_iff_witness :
  let g := holding [Item.mk (Some 300) 510 1 bomb true] in
  isGameActive g = true /\ startTime g = Some 0
  /\ isGameActive (fst (update g [] 1000 0 0)) = false.
Proof.
  cbv zeta. split; [reflexivity|]. split; [reflexivity|].
  apply (proj2 (update_ends_iff (holding [Item.mk (Some 300) 510 1 bomb true])
                                [] 1000 0 0 0 eq_refl eq_refl)).
  right. exists (Item.mk (Some 300) 510 1 bomb true).
  split; [left; reflexivity|]. split; reflexivity.
Defined.

(** [update_timeout]: 61 seconds into a round of 60. *)
Lemma update_timeout_witness :
  isGameActive fresh = true /\ startTime fresh = Some 0
  /\ (inject_Z (timeLimit fresh) <= Qmake (61000 - 0) 1000)%Q
  /\ update fresh [] 61000 0 0
     = (set_isGameActive (set_level fresh (levelAt (Some (Qmake (61000 - 0) 1000)))) false,
        [(0, levelAt (Some (Qmake (61000 - 0) 1000)))]).
Proof.
  assert (H : (inject_Z (timeLimit fresh) <= Qmake (61000 - 0) 1000)%Q)
    by (unfold Qle; cbn; lia).
  split; [reflexivity|]. split; [reflexivity|]. split; [exact H|].
  exact (proj1 (update_timeout fresh [] 61000 0 0 0 eq_refl eq_refl H)).
Defined.

(** [update_spawn]: the 51st tick of a level-1 round spawns. *)
Lemma update_spawn_witness :
  let g := set_spawnTimer fresh 50 in
  isGameActive g = true /\ startTime g = Some 0
  /\ (Qmake (1000 - 0) 1000 < inject_Z (timeLimit g))%Q
  /\ spawnTimer (fst (update g [] 1000 (1 # 2) (3 # 4))) = 0.
Proof.
  cbv zeta.
  assert (H : (Qmake (1000 - 0) 1000 < inject_Z (timeLimit (set_spawnTimer fresh 50)))%Q)
    by reflexivity.
  split; [reflexivity|]. split; [reflexivity|]. split; [exact H|].
  apply (proj1 (update_spawn (set_spawnTimer fresh 50) [] 1000 (1 # 2) (3 # 4) 0
                             eq_refl eq_refl H)).
  cbn. lia.
Defined.

(** [reached_lanes]: a start and 51 ticks of a level-1 round with a lane
    draw of 1/2; the 51st tick spawns the item that the theorem speaks
    about. *)
Lemma reached_lanes_witness :
  let cs := CallStart None 0 :: repeat (CallUpdate 1000 (1 # 2) 0) 51 in
  unit_draws (W := Calls) cs
  /\ items (reached (W := Calls) [] cs) = [Item.mk (Some 300) (-45) 1 apple true]
  /\ Forall (fun item => 0 <= Item.lane item <= 2
                         /\ Item.x item = Some (100 + 200 * Item.lane item))
            (items (reached (W := Calls) [] cs)).
Proof.
  cbv zeta.
  assert (H : unit_draws (W := Calls)
                (CallStart None 0 :: repeat (CallUpdate 1000 (1 # 2) 0) 51)).
  { constructor; [exact I|]. apply Forall_forall. intros c Hc.
    apply repeat_spec in Hc. subst c.
    split; [vm_compute; reflexivity|]. split; [unfold Qle; cbn; lia|reflexivity]. }
  split; [exact H|]. split; [vm_compute; reflexivity|].
  exact (reached_lanes (W := Calls) [] _ H).
Defined.

(** [unregistered_silent]: a round that times out with no callback. *)
Lemma unregistered_silent_witness :
  unregistered (W := Calls) [CallStart None 0; CallUpdate 61000 0 0; CallStop]
  /\ snd (calls (constructor, [(7, 1)])
                [CallStart None 0; CallUpdate 61000 0 0; CallStop]) = [(7, 1)].
Proof.
  assert (H : unregistered (W := Calls)
                           [CallStart None 0; CallUpdate 61000 0 0; CallStop]).
  { repeat constructor. }
  split; [exact H|]. exact (proj1 (unregistered_silent (W := Calls) [(7, 1)] _ H)).
Defined.

(** [inactive_idle]: an engine that was never started. *)
Lemma inactive_idle_witness :
  isGameActive (constructor (W := Calls)) = false
  /\ run (constructor, ([] : Calls))
         [StopClicked; Frame 1000 1001 0 0; Prediction (Some pose_left)]
     = (constructor, []).
Proof.
  split; [reflexivity|].
  exact (proj2 (proj2 (inactive_idle (W := Calls) constructor [] eq_refl)) _).
Defined.

(** [onPoseDetected_last_wins]: an unknown label, then left after right. *)
Lemma onPoseDetected_last_wins_witness :
  onPoseDetected fresh "jump" = fresh
  /\ onPoseDetected (onPoseDetected fresh pose_right) pose_left
     = onPoseDetected fresh pose_left.
Proof.
  split.
  - apply (proj1 (onPoseDetected_last_wins fresh "jump" pose_left)).
    intros [H|[H|H]]; discriminate H.
  - apply (proj2 (onPoseDetected_last_wins fresh pose_right pose_left)).
    left. reflexivity.
Defined.

(** [level_never_falls]: ticks at 1 second and at 21 seconds. *)
Lemma level_never_falls_witness :
  isGameActive fresh = true
  /\ isGameActive (fst (update fresh [] 1000 0 0)) = true
  /\ level (fst (update fresh [] 1000 0 0))
     <= level (fst (update (fst (update fresh [] 1000 0 0)) [] 21000 0 0)).
Proof.
  split; [reflexivity|]. split; [reflexivity|].
  apply (level_never_falls fresh [] [] 1000 21000 0 0 0 0 eq_refl eq_refl). lia.
Defined.

(** [remainingTime_countdown]: half a second and one and a half seconds
    into a round of 60. *)
Lemma remainingTime_countdown_witness :
  startTime fresh = Some 0 /\ 500 <= 1500
  /\ exists r1 r2,
       remainingTime fresh 500 = Some r1 /\ remainingTime fresh 1500 = Some r2
       /\ 0 <= r2 <= r1.
Proof.
  assert (H : 500 <= 1500) by lia.
  split; [reflexivity|]. split; [exact H|].
  destruct (remainingTime_countdown fresh 500 1500 0 eq_refl H)
    as (r1 & r2 & H1 & H2 & H3 & _).
  exists r1, r2. split; [exact H1|]. split; [exact H2|exact H3].
Defined.

(** [updateItems_calls]: two bombs placed by hand, both in the band. *)
Lemma updateItems_calls_witness :
  let g := holding [Item.mk (Some 300) 530 1 bomb true;
                    Item.mk (Some 300) 520 1 bomb true] in
  onGameEnd g = Some recorder
  /\ exists scores,
       snd (updateItems g []) = [] ++ map (fun s => (s, level g)) scores
       /\ List.length scores = 2%nat.
Proof.
  cbv zeta. split; [reflexivity|].
  destruct (updateItems_calls
              (holding [Item.mk (Some 300) 530 1 bomb true;
                        Item.mk (Some 300) 520 1 bomb true]) [] eq_refl)
    as (scores & H1 & H2 & _).
  exists scores. split; [exact H1|exact H2].
Defined.


